(** * Flossy web client: event handlers of [app.js] and of the
      messaging service worker [firebase-messaging-sw.js].

    The page script registers three click listeners (call button,
    notification opt-in, chat send); the service worker registers a
    background-message handler and a notification-click listener.  Each
    handler is embedded as a function on an explicit record of the
    browser state it reads and writes. *)

From Stdlib Require Import ZArith Lia.
From stdpp Require Import base list strings.

Local Open Scope string_scope.
Local Open Scope list_scope.

(** ** JavaScript values, as far as the handlers inspect them *)

Module JS.

(** Values decoded from JSON bodies and push payloads.  A number is kept
    by the two things the handlers can observe of it: whether it is falsy
    (zero; a decoded body holds no NaN) and the string ToString gives for
    it.  Object fields keep their insertion order. *)
#[local] Unset Elimination Schemes.
Inductive value : Type :=
| Undefined
| Null
| Boolean (b : bool)
| Num (zero : bool) (rendering : string)
| Str (s : string)
| Arr (xs : list value)
| Obj (fields : list (string * value)).
#[local] Set Elimination Schemes.

(** Abrupt completion: an exception thrown (or a promise rejected) with a
    message. *)
Inductive completion (A : Type) : Type :=
| Normal (a : A)
| Throw (err : string).
Arguments Normal {A} a.
Arguments Throw {A} err.

Global Instance completion_ret : MRet completion := fun A a => Normal a.
Global Instance completion_bind : MBind completion := fun A B k c =>
  match c with
  | Normal a => k a
  | Throw e => Throw e
  end.

(** ToBoolean. *)
Definition truthy (v : value) : bool :=
  match v with
  | Undefined | Null => false
  | Boolean b => b
  | Num zero _ => negb zero
  | Str s => negb (String.eqb s "")
  | Arr _ | Obj _ => true
  end.

(** [a || b] on already evaluated operands (every right operand in the
    sources is a property read, a literal or an object literal, none of
    which has an effect). *)
Definition or_else (a b : value) : value := if truthy a then a else b.

Fixpoint assoc (k : string) (fields : list (string * value)) : value :=
  match fields with
  | [] => Undefined
  | (k', v) :: rest => if String.eqb k k' then v else assoc k rest
  end.

(** [v.k] for the identifier keys the sources read ([reply],
    [notification], [data], [title], [body], [icon], [badge], [url]):
    none of them is an array index or a member of a built-in prototype, so
    only own fields of objects answer; reading from [undefined] or [null]
    throws a TypeError. *)
Definition get (v : value) (k : string) : completion value :=
  match v with
  | Undefined | Null => Throw "TypeError"
  | Obj fields => Normal (assoc k fields)
  | Boolean _ | Num _ _ | Str _ | Arr _ => Normal Undefined
  end.

(** The string that ToString gives when the conversion completes (see
    [ToString] below for when it does). *)
Fixpoint to_string (v : value) : string :=
  match v with
  | Undefined => "undefined"
  | Null => "null"
  | Boolean true => "true"
  | Boolean false => "false"
  | Num _ rendering => rendering
  | Str s => s
  | Arr xs =>
      (fix join (l : list value) : string :=
         match l with
         | [] => ""
         | x :: rest =>
             let here := match x with
                         | Undefined | Null => ""
                         | _ => to_string x
                         end in
             match rest with
             | [] => here
             | _ :: _ => here +:+ "," +:+ join rest
             end
         end) xs
  | Obj _ => "[object Object]"
  end.

Definition has_own (k : string) (fields : list (string * value)) : bool :=
  existsb (fun field => String.eqb k field.1) fields.

(** Whether ToString throws.  The members of a decoded object are data,
    never functions: an own [toString] member shadows
    [Object.prototype.toString] and cannot be called, and [valueOf]
    (own, or inherited and answering the object itself) yields no
    primitive, so the conversion ends in a TypeError.  An array is joined
    from the conversions of its elements, [null] and [undefined] apart. *)
Fixpoint to_string_throws (v : value) : bool :=
  match v with
  | Obj fields => has_own "toString" fields
  | Arr xs =>
      (fix any (l : list value) : bool :=
         match l with
         | [] => false
         | x :: rest => to_string_throws x || any rest
         end) xs
  | _ => false
  end.

(** ToString, as a template literal and the conversion of an argument to
    a DOM string apply it. *)
Definition ToString (v : value) : completion string :=
  if to_string_throws v then Throw "TypeError" else Normal (to_string v).

End JS.

Declare Scope js_scope.
Delimit Scope js_scope with js.
Infix "||" := JS.or_else : js_scope.

(** ** Handlers as state transformers that may throw

    A handler body runs on the state [S] of its component and either
    completes or throws; [try_catch] is [try { .. } catch (err) { .. }].
    State changes made before a throw persist. *)

Definition prog (S A : Type) : Type := S -> S * JS.completion A.

Global Instance prog_ret {S} : MRet (prog S) := fun A a s => (s, JS.Normal a).
Global Instance prog_bind {S} : MBind (prog S) := fun A B k m s =>
  match m s with
  | (s', JS.Normal a) => k a s'
  | (s', JS.Throw e) => (s', JS.Throw e)
  end.

Definition try_catch {S A} (body : prog S A) (handler : string -> prog S A) : prog S A :=
  fun s =>
    match body s with
    | (s', JS.Normal a) => (s', JS.Normal a)
    | (s', JS.Throw e) => handler e s'
    end.

Definition modify {S} (f : S -> S) : prog S unit := fun s => (f s, JS.Normal tt).
Definition gets {S A} (f : S -> A) : prog S A := fun s => (s, JS.Normal (f s)).
Definition lift {S A} (c : JS.completion A) : prog S A := fun s => (s, c).

(** The state a handler leaves behind. *)
Definition exec {S A} (m : prog S A) (s : S) : S := fst (m s).

(** ** Call button: WebSocket session ([app.js], lines 1-39) *)

Module Call.

(** [WebSocket.readyState]. *)
Inductive ready_state : Type := CONNECTING | OPEN | CLOSING | CLOSED.

Global Instance ready_state_eq_dec : EqDecision ready_state.
Proof. solve_decision. Defined.

(** Payload of a [message] event. *)
Inductive payload : Type :=
| Blob (id : nat)
| Text (s : string).

Inductive log_line : Type :=
| Log (msg : string)
| LogWith (msg : string) (arg : string).

(** The state the call handlers touch.  [sockets] holds the ready state
    of every [WebSocket] object constructed so far, in construction order;
    [ws] is the script's global handle ([None] while it is [undefined]);
    [object_urls] lists the blobs an object URL was created for (none is
    ever revoked); [audioPlayer_src] indexes into it. *)
Record page : Type := Page {
  sockets : list ready_state;
  ws : option nat;
  callBtn_textContent : string;
  audioPlayer_src : option nat;
  object_urls : list nat;
  console : list log_line
}.

Definition idle_glyph : string := "📞".
Definition end_label : string := "🔴 End".

Definition set_sockets (f : list ready_state -> list ready_state) (p : page) : page :=
  Page (f (sockets p)) (ws p) (callBtn_textContent p) (audioPlayer_src p)
       (object_urls p) (console p).
Definition set_ws (h : option nat) (p : page) : page :=
  Page (sockets p) h (callBtn_textContent p) (audioPlayer_src p)
       (object_urls p) (console p).
Definition set_label (l : string) (p : page) : page :=
  Page (sockets p) (ws p) l (audioPlayer_src p) (object_urls p) (console p).
Definition console_log (l : log_line) (p : page) : page :=
  Page (sockets p) (ws p) (callBtn_textContent p) (audioPlayer_src p)
       (object_urls p) (console p ++ [l]).

(** [ws && ws.readyState === WebSocket.OPEN] *)
Definition ws_is_open (p : page) : bool :=
  match ws p with
  | Some i => bool_decide (sockets p !! i = Some OPEN)
  | None => false
  end.

(** [ws.close()] on an open socket: the closing handshake starts. *)
Definition close_ws (p : page) : page :=
  match ws p with
  | Some i => set_sockets (<[i := CLOSING]>) p
  | None => p
  end.

(** [ws = new WebSocket(wsUrl)]: a fresh connecting socket, to which the
    three handlers below are attached before the listener returns. *)
Definition new_ws (p : page) : page :=
  set_ws (Some (length (sockets p))) (set_sockets (fun l => l ++ [CONNECTING]) p).

(** The click listener of the call button. *)
Definition click (p : page) : page :=
  if ws_is_open p then
    console_log (Log "Call ended") (set_label idle_glyph (close_ws p))
  else
    new_ws p.

Definition onopen (p : page) : page :=
  set_label end_label (console_log (Log "Connected to voice agent") p).

Definition onmessage (d : payload) (p : page) : page :=
  match d with
  | Blob b =>
      Page (sockets p) (ws p) (callBtn_textContent p)
           (Some (length (object_urls p))) (object_urls p ++ [b]) (console p)
  | Text s => console_log (LogWith "Message:" s) p
  end.

Definition onclose (p : page) : page :=
  set_label idle_glyph (console_log (Log "Disconnected") p).

(** What can happen to the page: the user clicks, or the transport
    reports on socket [i]. *)
Inductive event : Type :=
| Click
| SocketOpen (i : nat)
| SocketMessage (i : nat) (d : payload)
| SocketClose (i : nat).

(** One turn of the event loop, for the events that run a handler.  The
    browser fires [open] only on a connecting socket, [message] only on an
    open one and [close] once, on a socket that is not closed yet; an
    event that cannot occur in the current state leaves the page as it
    is.  (A closing handshake that the server starts runs no handler; it
    is a step of [wire_step] below.) *)
Definition step (p : page) (e : event) : page :=
  match e with
  | Click => click p
  | SocketOpen i =>
      if bool_decide (sockets p !! i = Some CONNECTING)
      then onopen (set_sockets (<[i := OPEN]>) p) else p
  | SocketMessage i d =>
      if bool_decide (sockets p !! i = Some OPEN) then onmessage d p else p
  | SocketClose i =>
      match sockets p !! i with
      | Some CLOSED | None => p
      | Some _ => onclose (set_sockets (<[i := CLOSED]>) p)
      end
  end.

Definition run (p : page) (es : list event) : page := foldl step p es.

(** Modelled from the spec: the markup that hosts the button is not among
    the sources; the button starts with the idle glyph, the label every
    handler resets it to.  No socket exists and [ws] is [undefined]. *)
Definition init : page := Page [] None idle_glyph None [] [].

(** Number of connections that are not closed. *)
Definition active (p : page) : nat :=
  length (filter (fun st => st <> CLOSED) (sockets p)).

(** The handle [ws] refers to a socket whose handshake (opening or
    closing) is still in flight. *)
Definition pending (p : page) : bool :=
  match ws p with
  | Some i =>
      bool_decide (sockets p !! i = Some CONNECTING)
      || bool_decide (sockets p !! i = Some CLOSING)
  | None => false
  end.

(** A trace is patient when the user never clicks while a handshake of
    the current socket is in flight. *)
Fixpoint patient (p : page) (es : list event) : bool :=
  match es with
  | [] => true
  | e :: es' =>
      match e with Click => negb (pending p) | _ => true end
      && patient (step p e) es'
  end.

(** The lifecycle event that completes the handshake started by the last
    click. *)
Definition settle_event (p : page) : event :=
  match ws p with
  | Some i =>
      if bool_decide (sockets p !! i = Some CONNECTING)
      then SocketOpen i else SocketClose i
  | None => SocketClose 0
  end.

(** [n] toggles, each one a click followed by the lifecycle event it
    causes, before the next click. *)
Fixpoint toggles (n : nat) (p : page) : list event :=
  match n with
  | O => []
  | S n' =>
      let p1 := click p in
      let e := settle_event p1 in
      Click :: e :: toggles n' (step p1 e)
  end.

(** Every socket that is not closed is the one [ws] refers to. *)
Definition owned (p : page) : Prop :=
  forall j st, sockets p !! j = Some st -> st <> CLOSED -> ws p = Some j.

(** The label shows the end-call text exactly when [ws] is open, and the
    idle glyph otherwise. *)
Definition label_ok (p : page) : Prop :=
  callBtn_textContent p = (if ws_is_open p then end_label else idle_glyph).

Definition inv (p : page) : Prop := owned p /\ label_ok p.

(** Besides the events that run a handler, the transport can start the
    closing handshake of an open socket itself: the ready state becomes
    [CLOSING] and no handler runs until the [close] event. *)
Inductive wire_event : Type :=
| Handled (e : event)
| ServerClosing (i : nat).

Definition wire_step (p : page) (w : wire_event) : page :=
  match w with
  | Handled e => step p e
  | ServerClosing i =>
      if bool_decide (sockets p !! i = Some OPEN)
      then set_sockets (<[i := CLOSING]>) p else p
  end.

Definition wire_run (p : page) (ws : list wire_event) : page := foldl wire_step p ws.

(** A connection that has been opened and is not closed yet. *)
Definition live (p : page) : Prop :=
  exists i st, sockets p !! i = Some st /\ (st = OPEN \/ st = CLOSING).

(** [wsProto] and [wsUrl] ([app.js], lines 4-5), from
    [window.location.protocol] and [window.location.host]. *)
Definition wsProto (protocol : string) : string :=
  if String.eqb protocol "https:" then "wss" else "ws".

Definition wsUrl (protocol host : string) : string :=
  wsProto protocol +:+ "://" +:+ host +:+ "/ws/agent".

(** The handle refers to the socket constructed last. *)
Definition handle_is_newest (p : page) : Prop :=
  match ws p with
  | Some i => S i = length (sockets p)
  | None => sockets p = []
  end.

(** The audio element plays the object URL created last. *)
Definition plays_newest_url (p : page) : Prop :=
  match audioPlayer_src p with
  | Some k => S k = length (object_urls p)
  | None => object_urls p = []
  end.

(** The blobs of the message events of a trace that reach [onmessage]. *)
Fixpoint delivered_blobs (p : page) (es : list event) : list nat :=
  match es with
  | [] => []
  | e :: es' =>
      match e with
      | SocketMessage i (Blob b) =>
          if bool_decide (sockets p !! i = Some OPEN) then [b] else []
      | _ => []
      end ++ delivered_blobs (step p e) es'
  end.

End Call.

(** ** Notification opt-in ([app.js], lines 57-70) *)

Module Notify.

Inductive console_entry : Type :=
| ConsoleLog (msg : string) (arg : string)
| ConsoleError (msg : string) (err : string).

(** What the listener leaves behind: the calls it made to the host
    ([Notification.requestPermission]) and to the messaging SDK
    ([messaging.getToken]), the console and the alerts shown. *)
Record page : Type := Page {
  permission_requests : nat;
  token_requests : nat;
  console : list console_entry;
  alerts : list string
}.

Definition init : page := Page 0 0 [] [].

(** [await Notification.requestPermission()], answered by the host with
    [answer]. *)
Definition requestPermission (answer : JS.completion string) : prog page string :=
  fun p => (Page (S (permission_requests p)) (token_requests p) (console p) (alerts p),
            answer).

(** [await messaging.getToken()], answered by the SDK with [answer]. *)
Definition getToken (answer : JS.completion string) : prog page string :=
  fun p => (Page (permission_requests p) (S (token_requests p)) (console p) (alerts p),
            answer).

Definition console_add (e : console_entry) : prog page unit :=
  modify (fun p => Page (permission_requests p) (token_requests p)
                        (console p ++ [e]) (alerts p)).

Definition alert (msg : string) : prog page unit :=
  modify (fun p => Page (permission_requests p) (token_requests p)
                        (console p) (alerts p ++ [msg])).

(** The click listener of the opt-in button. *)
Definition requestEnable (permission_answer token_answer : JS.completion string)
  : prog page unit :=
  try_catch
    (permission ← requestPermission permission_answer;
     if String.eqb permission "granted" then
       token ← getToken token_answer;
       console_add (ConsoleLog "Notification token:" token);;
       alert "Notifications enabled!"
     else
       alert "Permission denied for notifications.")
    (fun err => console_add (ConsoleError "Error enabling notifications:" err)).

End Notify.

(** ** Chat box ([app.js], lines 75-109) *)

Module Chat.

(** A [div] appended to the chat box, by the two attributes
    [appendMessage] assigns.  The scroll position, which no handler
    reads, is not represented. *)
Record div : Type := Div { className : string; innerHTML : string }.

(** A request handed to [fetch]; [message] is the field of the JSON
    body. *)
Record request : Type := Request {
  url : string;
  method : string;
  content_type : string;
  message : string
}.

(** How a [fetch] settles: the promise rejects, or it resolves with a
    response of some status whose [json()] decodes to a value or rejects. *)
Inductive fetch_result : Type :=
| Rejected (err : string)
| Response (status : Z) (json : JS.completion JS.value).

Inductive console_entry : Type :=
| ConsoleError (msg : string) (err : string).

Record page : Type := Page {
  chatbox : list div;
  userInput_value : string;
  requests : list request;
  console : list console_entry
}.

Definition init (typed : string) : page := Page [] typed [] [].

Definition dquote : string := String (Ascii.ascii_of_nat 34) "".

Definition bytes (codes : list nat) : string :=
  foldr (fun n s => String (Ascii.ascii_of_nat n) s) "" codes.

(** White space and line terminators of ECMAScript, in UTF-8. *)
Definition white_space : list string :=
  map bytes
    [ [9]; [10]; [11]; [12]; [13]; [32]; [194; 160]; [225; 154; 128];
      [226; 128; 128]; [226; 128; 129]; [226; 128; 130]; [226; 128; 131];
      [226; 128; 132]; [226; 128; 133]; [226; 128; 134]; [226; 128; 135];
      [226; 128; 136]; [226; 128; 137]; [226; 128; 138]; [226; 128; 168];
      [226; 128; 169]; [226; 128; 175]; [226; 129; 159]; [227; 128; 128];
      [239; 187; 191] ].

Fixpoint strip_prefix (pre s : string) : option string :=
  match pre, s with
  | EmptyString, _ => Some s
  | String a pre', String b s' =>
      if Ascii.eqb a b then strip_prefix pre' s' else None
  | String _ _, EmptyString => None
  end.

Fixpoint strip_any (pats : list string) (s : string) : option string :=
  match pats with
  | [] => None
  | pat :: rest =>
      match strip_prefix pat s with
      | Some s' => Some s'
      | None => strip_any rest s
      end
  end.

Fixpoint trim_start_fuel (fuel : nat) (pats : list string) (s : string) : string :=
  match fuel with
  | O => s
  | S fuel' =>
      match strip_any pats s with
      | Some s' => trim_start_fuel fuel' pats s'
      | None => s
      end
  end.

Definition trim_start (s : string) : string :=
  trim_start_fuel (String.length s) white_space s.

(** Trailing white space is leading white space of the reversed string,
    each pattern reversed. *)
Definition trim_end (s : string) : string :=
  String.rev (trim_start_fuel (String.length s) (map String.rev white_space)
                              (String.rev s)).

(** [String.prototype.trim] *)
Definition trim (s : string) : string := trim_end (trim_start s).

Definition placeholder : string := "Hmm... I’m thinking!".
Definition error_text : string := "⚠️ Error connecting to server".

(** The [div] built by [appendMessage(sender, text)], for a [text] that
    converts to a string. *)
Definition message_div (sender : string) (text : JS.value) : div :=
  Div (if String.eqb sender "user" then "text-right my-1" else "text-left my-1")
      ("<span class=" +:+ dquote +:+ "inline-block px-3 py-2 rounded-xl "
       +:+ (if String.eqb sender "user"
            then "bg-blue-600 text-white"
            else "bg-gray-300 text-black")
       +:+ dquote +:+ ">" +:+ JS.to_string text +:+ "</span>").

(** The template literal converts [text] first; when that throws,
    nothing has been appended. *)
Definition appendMessage (sender : string) (text : JS.value) : prog page unit :=
  _ ← lift (JS.ToString text);
  modify (fun p => Page (chatbox p ++ [message_div sender text])
                        (userInput_value p) (requests p) (console p)).

Definition set_userInput_value (v : string) : prog page unit :=
  modify (fun p => Page (chatbox p) v (requests p) (console p)).

(** The call of [fetch]: the request goes out. *)
Definition fetch (r : request) : prog page unit :=
  modify (fun p => Page (chatbox p) (userInput_value p) (requests p ++ [r]) (console p)).

Definition console_error (msg err : string) : prog page unit :=
  modify (fun p => Page (chatbox p) (userInput_value p) (requests p)
                        (console p ++ [ConsoleError msg err])).

(** The click listener of the send button, up to its first [await]:
    answers whether a request is now in flight. *)
Definition send_click : prog page bool :=
  text ← gets (fun p => trim (userInput_value p));
  if String.eqb text "" then mret false
  else
    appendMessage "user" (JS.Str text);;
    set_userInput_value "";;
    fetch (Request "/chat" "POST" "application/json" text);;
    mret true.

(** The rest of the listener, resumed when the request settles as [o]. *)
Definition send_resume (o : fetch_result) : prog page unit :=
  try_catch
    (res ← lift (match o with
                 | Rejected err => JS.Throw err
                 | Response status json => JS.Normal json
                 end);
     data ← lift res;
     reply ← lift (JS.get data "reply");
     appendMessage "flossy" (reply || JS.Str placeholder)%js)
    (fun err =>
       console_error "Chat error:" err;;
       appendMessage "flossy" (JS.Str error_text)).

(** One click on send whose request, if any, settles as [o] before
    anything else happens to the page. *)
Definition send (o : fetch_result) : prog page unit :=
  in_flight ← send_click;
  if in_flight : bool then send_resume o else mret tt.

(** A response counts as a success for HTTP when its status is 2xx
    ([Response.ok]); the listener never reads it. *)
Definition ok (status : Z) : bool := (200 <=? status)%Z && (status <=? 299)%Z.

(** What the listener takes for a failed request: the promise of
    [fetch] rejects, or the body does not decode, or it decodes to
    [null], whose [reply] cannot be read. *)
Definition failed (o : fetch_result) : bool :=
  match o with
  | Rejected _ => true
  | Response _ (JS.Throw _) => true
  | Response _ (JS.Normal (JS.Null | JS.Undefined)) => true
  | Response _ (JS.Normal _) => false
  end.

(** Failure as the contract words it: a network error, or a response
    whose status is not 2xx. *)
Definition http_failure (o : fetch_result) : bool :=
  match o with
  | Rejected _ => true
  | Response status _ => negb (ok status)
  end.

(** The body decodes, but what would be shown for its [reply] cannot be
    converted to a string. *)
Definition unprintable_reply (o : fetch_result) : bool :=
  match o with
  | Response _ (JS.Normal data) =>
      match JS.get data "reply" with
      | JS.Normal reply => JS.to_string_throws (reply || JS.Str placeholder)%js
      | JS.Throw _ => false
      end
  | _ => false
  end.

(** [n] spaces. *)
Fixpoint spaces (n : nat) : string :=
  match n with
  | O => ""
  | S n' => String (Ascii.ascii_of_nat 32) (spaces n')
  end.

(** A conversation: for each turn the user types a text and clicks send,
    and the request, if one goes out, settles before the next turn. *)
Fixpoint session (turns : list (string * fetch_result)) : prog page unit :=
  match turns with
  | [] => mret tt
  | (typed, o) :: rest =>
      set_userInput_value typed;; send o;; session rest
  end.

(** The turns of a conversation whose text is not blank. *)
Definition spoken (turns : list (string * fetch_result)) : list (string * fetch_result) :=
  filter (fun turn => trim turn.1 <> "") turns.

End Chat.

(** ** Messaging service worker ([firebase-messaging-sw.js]) *)

Module Worker.

(** A notification on display: the title and the options handed to
    [showNotification]. *)
Record notification : Type := Notification {
  title : string;
  body : string;
  icon : string;
  badge : string;
  data : JS.value
}.

Record state : Type := State {
  console : list string;
  shown : list notification
}.

Definition init : state := State [] [].

Definition console_log (msg : string) : prog state unit :=
  modify (fun s => State (console s ++ [msg]) (shown s)).

(** [self.registration.showNotification(title, options)]: the title and
    the string members of the options are converted with ToString, [data]
    is kept as it is.  The operation returns a promise, so a conversion
    that throws is reported by rejecting that promise, which the handler
    does not look at: nothing is displayed and the handler goes on. *)
Definition showNotification (t : JS.value) (b i g : JS.value) (d : JS.value)
  : prog state unit :=
  modify (fun s =>
    if JS.to_string_throws t || JS.to_string_throws b
       || JS.to_string_throws i || JS.to_string_throws g
    then s
    else State (console s)
               (shown s ++ [Notification (JS.to_string t) (JS.to_string b)
                                         (JS.to_string i) (JS.to_string g) d])).

Definition default_title : string := "FlossyAI Notification".
Definition default_body : string := "You have a new message from FlossyAI!".
Definition default_icon : string := "/static/flossy-icon.png".
Definition default_badge : string := "/static/flossy-badge.png".
Definition site_root : string := "/".

(** The handler registered with [messaging.onBackgroundMessage].  Both
    [notification] and [data] are truthy when their fields are read, so
    the reads of the right operands of [||], done here before the choice,
    cannot throw. *)
Definition onBackgroundMessage (payload : JS.value) : prog state unit :=
  console_log "📨 Received background message:";;
  pn ← lift (JS.get payload "notification");
  let notification := (pn || JS.Obj [])%js in
  pd ← lift (JS.get payload "data");
  let data := (pd || JS.Obj [])%js in
  ntitle ← lift (JS.get notification "title");
  dtitle ← lift (JS.get data "title");
  let notificationTitle := (ntitle || dtitle || JS.Str default_title)%js in
  nbody ← lift (JS.get notification "body");
  dbody ← lift (JS.get data "body");
  nicon ← lift (JS.get notification "icon");
  dicon ← lift (JS.get data "icon");
  dbadge ← lift (JS.get data "badge");
  durl ← lift (JS.get data "url");
  showNotification notificationTitle
    (nbody || dbody || JS.Str default_body)%js
    (nicon || dicon || JS.Str default_icon)%js
    (dbadge || JS.Str default_badge)%js
    (JS.Obj [("url", (durl || JS.Str site_root)%js)]).

(** A page instance returned by [clients.matchAll]; [has_focus] is
    ["focus" in client]. *)
Record client : Type := Client { client_id : nat; has_focus : bool }.

(** What the click listener asks of the browser. *)
Inductive effect : Type :=
| ConsoleLog (msg : string)
| CloseNotification
| Navigate (c : nat) (url : string)
| Focus (c : nat)
| OpenWindow (url : string).

(** [if (.. && url) client.navigate(url)] and the like for
    [clients.openWindow]: the call is made for a truthy [url].  Both
    operations return promises; when the conversion of [url] to a string
    throws, the promise is rejected and nothing is navigated or opened. *)
Definition with_url (request : string -> effect) (u : JS.value) : list effect :=
  if JS.truthy u then
    match JS.ToString u with
    | JS.Normal url => [request url]
    | JS.Throw _ => []
    end
  else [].

(** [event.notification.data && event.notification.data.url] *)
Definition data_url (n : notification) : JS.completion JS.value :=
  if JS.truthy (data n) then JS.get (data n) "url" else JS.Normal (data n).

(** The [for] loop over the client list: the first client with a [focus]
    member is navigated (when there is a URL) and focused, and the
    listener returns. *)
Fixpoint visit (n : notification) (clientList : list client)
  : JS.completion (option (list effect)) :=
  match clientList with
  | [] => JS.Normal None
  | c :: rest =>
      if has_focus c then
        u ← data_url n;
        mret (Some (with_url (Navigate (client_id c)) u ++ [Focus (client_id c)]))
      else visit n rest
  end.

(** The listener first logs the click and closes the notification. *)
Definition clicked : list effect :=
  [ConsoleLog "🖱️ Notification click received:"; CloseNotification].

(** The [notificationclick] listener, on notification [n], with the
    window clients [clientList]; [openWindow] tells whether
    [clients.openWindow] exists.  The completion is that of the callback
    handed to [then]. *)
Definition notificationclick (n : notification) (clientList : list client)
    (openWindow : bool) : JS.completion (list effect) :=
  r ← visit n clientList;
  match r with
  | Some effects => mret (clicked ++ effects)
  | None =>
      if openWindow then
        u ← data_url n;
        mret (clicked ++ with_url OpenWindow u)
      else mret clicked
  end.

(** What a payload supplies under [key] in one of its two sections
    ([notification] or [data]): the member of that name, when the section
    is an object and the member a string that is not empty. *)
Definition supplied (payload : JS.value) (section key : string) : option string :=
  match payload with
  | JS.Obj fields =>
      match JS.assoc section fields with
      | JS.Obj members =>
          match JS.assoc key members with
          | JS.Str s => if String.eqb s "" then None else Some s
          | _ => None
          end
      | _ => None
      end
  | _ => None
  end.

(** The choice the contract words: the notification's member, else the
    data member, else the default. *)
Definition preferred (payload : JS.value) (key default : string) : string :=
  match supplied payload "notification" key with
  | Some s => s
  | None =>
      match supplied payload "data" key with
      | Some s => s
      | None => default
      end
  end.

(** A member is a string or absent. *)
Definition string_or_absent (v : JS.value) : bool :=
  match v with
  | JS.Undefined | JS.Str _ => true
  | _ => false
  end.

(** A section of a payload is absent, or an object whose members under
    [keys] are strings or absent. *)
Definition section_shaped (keys : list string) (v : JS.value) : bool :=
  match v with
  | JS.Undefined => true
  | JS.Obj members => forallb (fun k => string_or_absent (JS.assoc k members)) keys
  | _ => false
  end.

Definition notification_keys : list string := ["title"; "body"; "icon"].
Definition data_keys : list string := ["title"; "body"; "icon"; "badge"; "url"].

(** The payload shape of the push interface:
    [{notification?: {title, body, icon}, data?: {title, body, icon, badge, url}}]. *)
Definition shaped (payload : JS.value) : bool :=
  match payload with
  | JS.Obj fields =>
      section_shaped notification_keys (JS.assoc "notification" fields)
      && section_shaped data_keys (JS.assoc "data" fields)
  | _ => false
  end.

(** The member [key] of a section as the handler reads it, after the
    section defaulted to [{}]. *)
Definition member (fields : list (string * JS.value)) (section key : string) : JS.value :=
  match (JS.assoc section fields || JS.Obj [])%js with
  | JS.Obj members => JS.assoc key members
  | _ => JS.Undefined
  end.

(** [a || b || c] on members that are strings or absent picks the first
    string that is not empty. *)
Definition pick (n d : JS.value) (default : string) : string :=
  JS.to_string (n || d || JS.Str default)%js.

(** The own members of a payload; a primitive has none that the handler
    reads. *)
Definition own (payload : JS.value) : list (string * JS.value) :=
  match payload with
  | JS.Obj fields => fields
  | _ => []
  end.

(** The values the handler hands to [showNotification] to be converted
    to strings: title, body, icon and badge. *)
Definition texts (payload : JS.value) : list JS.value :=
  let fields := own payload in
  [ (member fields "notification" "title" || member fields "data" "title"
     || JS.Str default_title)%js;
    (member fields "notification" "body" || member fields "data" "body"
     || JS.Str default_body)%js;
    (member fields "notification" "icon" || member fields "data" "icon"
     || JS.Str default_icon)%js;
    (member fields "data" "badge" || JS.Str default_badge)%js ].

(** All of them convert. *)
Definition displayable (payload : JS.value) : bool :=
  forallb (fun v => negb (JS.to_string_throws v)) (texts payload).

End Worker.

Module CallFacts.
Import Call.

Lemma filter_none {A} (P : A -> Prop) `{!forall x, Decision (P x)} (l : list A) :
  (forall j x, l !! j = Some x -> ~ P x) -> filter P l = [].
Proof.
  induction l as [|a l IH]; intros Hall; [done|].
  rewrite filter_cons. destruct (decide (P a)) as [Ha|Ha].
  - exfalso. exact (Hall 0 a eq_refl Ha).
  - apply IH. intros j x Hj. exact (Hall (S j) x Hj).
Qed.

Lemma filter_at_most_one {A} (P : A -> Prop) `{!forall x, Decision (P x)}
    (l : list A) (i : nat) :
  (forall j x, l !! j = Some x -> P x -> j = i) -> length (filter P l) <= 1.
Proof.
  revert i. induction l as [|a l IH]; intros i Hall; simpl; [lia|].
  rewrite filter_cons. destruct (decide (P a)) as [Ha|Ha].
  - assert (i = 0) as -> by (symmetry; exact (Hall 0 a eq_refl Ha)).
    rewrite filter_none; [simpl; lia|].
    intros j x Hj Hx. specialize (Hall (S j) x Hj Hx). discriminate.
  - apply (IH (pred i)). intros j x Hj Hx.
    specialize (Hall (S j) x Hj Hx). lia.
Qed.

Lemma owned_active (p : page) : owned p -> active p <= 1.
Proof.
  intros H. unfold active. destruct (ws p) as [i|] eqn:Hws.
  - apply (filter_at_most_one _ _ i). intros j st Hj Hst.
    specialize (H j st Hj Hst). congruence.
  - rewrite filter_none; [simpl; lia|].
    intros j st Hj Hst. specialize (H j st Hj Hst). congruence.
Qed.

Lemma inv_init : inv init.
Proof. split; [intros j st Hj; discriminate Hj | reflexivity]. Qed.

Lemma ws_is_open_spec (p : page) :
  ws_is_open p = true <-> exists i, ws p = Some i /\ sockets p !! i = Some OPEN.
Proof.
  unfold ws_is_open. destruct (ws p) as [i|].
  - rewrite bool_decide_eq_true. split; [eauto|]. intros (j & [= ->] & Hj). done.
  - split; [done|]. intros (j & [=] & _).
Qed.

Lemma owned_idle (p : page) :
  owned p -> ws_is_open p = false -> pending p = false ->
  forall j st, sockets p !! j = Some st -> st = CLOSED.
Proof.
  intros Hown Hopen Hpend j st Hj.
  destruct (decide (st = CLOSED)) as [|Hne]; [done|exfalso].
  pose proof (Hown j st Hj Hne) as Hws.
  unfold ws_is_open, pending in *. rewrite Hws, Hj in *.
  destruct st; try done;
    repeat (case_bool_decide; try done; try congruence).
Qed.

(** Changing the state of the socket [ws] refers to keeps [owned]. *)
Lemma owned_insert (p q : page) (i : nat) (st : ready_state) :
  owned p -> ws p = Some i -> ws q = Some i ->
  sockets q = <[i := st]> (sockets p) -> owned q.
Proof.
  intros Hown Hws Hws' Hsock j st' Hj Hst'. rewrite Hws'.
  destruct (decide (i = j)) as [->|Hne]; [done|].
  rewrite Hsock, list_lookup_insert_ne in Hj by done.
  rewrite <- Hws. eauto.
Qed.

Lemma click_inv (p : page) : inv p -> pending p = false -> inv (click p).
Proof.
  intros [Hown Hlab] Hpend. unfold click.
  destruct (ws_is_open p) eqn:Hopen.
  - apply ws_is_open_spec in Hopen as (i & Hws & Hi).
    pose proof (lookup_lt_Some _ _ _ Hi) as Hlt.
    split.
    + apply (owned_insert p _ i CLOSING); try done;
        unfold close_ws; by rewrite Hws.
    + unfold label_ok, ws_is_open, close_ws. rewrite Hws. simpl. rewrite Hws.
      rewrite list_lookup_insert_eq by done.
      rewrite bool_decide_eq_false_2; done.
  - pose proof (owned_idle p Hown Hopen Hpend) as Hall.
    split.
    + intros j st. unfold new_ws. simpl. intros Hj Hst.
      destruct (decide (j < length (sockets p))) as [Hlt|Hge].
      * rewrite lookup_app_l in Hj by done. by apply Hall in Hj.
      * apply lookup_lt_Some in Hj as Hlen. rewrite length_app in Hlen.
        simpl in Hlen. f_equal. lia.
    + unfold label_ok, ws_is_open, new_ws. simpl.
      rewrite lookup_app_r, Nat.sub_diag by done. simpl.
      unfold label_ok in Hlab. by rewrite Hopen in Hlab.
Qed.

Lemma step_inv (p : page) (e : event) :
  inv p -> (e = Click -> pending p = false) -> inv (step p e).
Proof.
  intros Hinv Hpat. destruct e as [|i|i d|i]; simpl.
  - apply click_inv; auto.
  - case_bool_decide as Hi; [|done]. destruct Hinv as [Hown Hlab].
    pose proof (lookup_lt_Some _ _ _ Hi) as Hlt.
    assert (ws p = Some i) as Hws by (apply (Hown i CONNECTING); done).
    split.
    + by apply (owned_insert p _ i OPEN).
    + unfold label_ok, ws_is_open. simpl. rewrite Hws.
      rewrite list_lookup_insert_eq by done.
      by rewrite bool_decide_eq_true_2.
  - case_bool_decide as Hi; [|done]. destruct Hinv as [Hown Hlab].
    destruct d; split; try exact Hown; exact Hlab.
  - destruct (sockets p !! i) as [st|] eqn:Hi; [|done].
    destruct (decide (st = CLOSED)) as [->|Hne]; [done|].
    destruct Hinv as [Hown Hlab].
    pose proof (lookup_lt_Some _ _ _ Hi) as Hlt.
    assert (ws p = Some i) as Hws by (apply (Hown i st); done).
    assert (inv (onclose (set_sockets (<[i := CLOSED]>) p))) as Hgoal.
    { split.
      + by apply (owned_insert p _ i CLOSED).
      + unfold label_ok, ws_is_open. simpl. rewrite Hws.
        rewrite list_lookup_insert_eq by done.
        by rewrite bool_decide_eq_false_2. }
    destruct st; done.
Qed.

Lemma run_inv (es : list event) (p : page) :
  inv p -> patient p es = true -> inv (run p es).
Proof.
  revert p. induction es as [|e es IH]; intros p Hinv Hpat; [done|].
  simpl in Hpat. apply andb_prop in Hpat as [He Hes].
  simpl. apply IH; [|done]. apply step_inv; [done|].
  intros ->. by apply negb_true_iff in He.
Qed.

Lemma patient_take (es : list event) (k : nat) (p : page) :
  patient p es = true -> patient p (take k es) = true.
Proof.
  revert k p. induction es as [|e es IH]; intros [|k] p Hpat; try done.
  simpl in *. apply andb_prop in Hpat as [He Hes].
  rewrite He. simpl. by apply IH.
Qed.

(** One toggle from a page with no handshake in flight flips the handle
    between open and not open and leaves no handshake in flight. *)
Lemma toggle_flips (p : page) :
  inv p -> pending p = false ->
  let p' := step (click p) (settle_event (click p)) in
  inv p' /\ pending p' = false /\ ws_is_open p' = negb (ws_is_open p).
Proof.
  intros Hinv Hpend p'.
  assert (inv p') as Hinv'.
  { apply step_inv; [by apply click_inv|].
    unfold settle_event. destruct (ws (click p)); [case_bool_decide|]; done. }
  split; [done|]. subst p'. unfold click, settle_event.
  destruct (ws_is_open p) eqn:Hopen.
  - apply ws_is_open_spec in Hopen as (i & Hws & Hi).
    pose proof (lookup_lt_Some _ _ _ Hi) as Hlt.
    unfold close_ws. rewrite Hws. simpl. rewrite Hws.
    rewrite list_lookup_insert_eq by done.
    rewrite bool_decide_eq_false_2 by done. simpl.
    rewrite list_lookup_insert_eq by done. simpl.
    unfold pending, ws_is_open. simpl. rewrite Hws.
    rewrite list_lookup_insert_eq by (by rewrite length_insert).
    done.
  - assert ((sockets p ++ [CONNECTING]) !! length (sockets p) = Some CONNECTING)
      as Hnew by (by apply list_lookup_middle).
    unfold new_ws. simpl. rewrite Hnew. simpl. rewrite Hnew. simpl.
    unfold pending, ws_is_open. simpl.
    rewrite list_lookup_insert_eq by (rewrite length_app; simpl; lia).
    done.
Qed.

Lemma toggles_run (n : nat) (p : page) :
  inv p -> pending p = false ->
  patient p (toggles n p) = true
  /\ pending (run p (toggles n p)) = false
  /\ ws_is_open (run p (toggles n p)) = xorb (Nat.odd n) (ws_is_open p).
Proof.
  revert p. induction n as [|n IH]; intros p Hinv Hpend.
  - simpl. by destruct (ws_is_open p).
  - destruct (toggle_flips p Hinv Hpend) as (Hinv' & Hpend' & Hopen').
    destruct (IH _ Hinv' Hpend') as (Hpat & Hp & Ho).
    cbn [toggles patient run foldl]. fold (run (step (step p Click) (settle_event (click p)))
                                           (toggles n (step (click p) (settle_event (click p))))).
    change (step p Click) with (click p).
    rewrite Hpend, Hpat, Hp, Ho, Hopen', Nat.odd_succ, <- Nat.negb_odd.
    repeat split.
    + unfold settle_event. destruct (ws (click p)); [case_bool_decide|]; done.
    + by destruct (Nat.odd n), (ws_is_open p).
Qed.

End CallFacts.

(** C1.  Two clicks in a row, the second before the first socket has
    opened: the guard of the listener tests for [OPEN] only, so the second
    click constructs a second socket while the first is still connecting.
    Both then open, the page holds two open connections, and a third click
    closes only the one [ws] refers to; the first stays open with no
    handle left to close it. *)
Theorem double_click_opens_two_connections :
  let p2 := Call.run Call.init [Call.Click; Call.Click] in
  let p4 := Call.run p2 [Call.SocketOpen 0; Call.SocketOpen 1] in
  let p6 := Call.run p4 [Call.Click; Call.SocketClose 1] in
  Call.sockets p2 = [Call.CONNECTING; Call.CONNECTING] /\ Call.active p2 = 2 /\
  Call.sockets p4 = [Call.OPEN; Call.OPEN] /\ Call.active p4 = 2 /\
  Call.sockets p6 = [Call.OPEN; Call.CLOSED] /\ Call.ws p6 = Some 1.
Proof. vm_compute. repeat split. Qed.

(** C2, as stated, fails on the code: a click that opens a connection
    leaves the label alone (only the socket's [open] event sets the
    end-call text), so clicks by themselves never change the label; and a
    [close] event of a superseded socket resets the label while the
    current socket is open. *)
Lemma clicks_alone_keep_idle_label :
  Call.callBtn_textContent (Call.run Call.init [Call.Click]) = Call.idle_glyph /\
  Call.callBtn_textContent (Call.run Call.init [Call.Click; Call.Click]) = Call.idle_glyph /\
  let p := Call.run Call.init
             [Call.Click; Call.SocketOpen 0; Call.Click; Call.Click;
              Call.SocketOpen 1; Call.SocketClose 0] in
  Call.callBtn_textContent p = Call.idle_glyph /\ Call.ws_is_open p = true.
Proof. vm_compute. repeat split. Qed.

(** C2, amended.  On every trace of clicks and socket events in which the
    user does not click while a handshake of the current socket is in
    flight, at every point of the trace at most one connection is not
    closed and the label is the end-call text when [ws] is open and the
    idle glyph when it is not; and when the trace consists of [n] toggles,
    each a click followed by the lifecycle event it causes, the label
    after it is the end-call text for odd [n] and the idle glyph for even
    [n]. *)
Theorem patient_toggles_alternate (es : list Call.event) :
  Call.patient Call.init es = true ->
  (forall k, let p := Call.run Call.init (take k es) in
     Call.active p <= 1 /\
     Call.callBtn_textContent p =
       (if Call.ws_is_open p then Call.end_label else Call.idle_glyph)) /\
  (forall n, es = Call.toggles n Call.init ->
     Call.ws_is_open (Call.run Call.init es) = Nat.odd n /\
     Call.callBtn_textContent (Call.run Call.init es) =
       (if Nat.odd n then Call.end_label else Call.idle_glyph)).
Proof.
  intros Hpat. split.
  - intros k p.
    assert (Call.inv p) as [Hown Hlab].
    { apply CallFacts.run_inv; [apply CallFacts.inv_init|].
      by apply CallFacts.patient_take. }
    split; [by apply CallFacts.owned_active | exact Hlab].
  - intros n ->.
    destruct (CallFacts.toggles_run n Call.init CallFacts.inv_init eq_refl)
      as (_ & _ & Hopen).
    assert (Call.inv (Call.run Call.init (Call.toggles n Call.init)))
      as [_ Hlab] by (by apply CallFacts.run_inv; [apply CallFacts.inv_init|]).
    unfold Call.label_ok in Hlab. rewrite Hopen in Hlab.
    change (Call.ws_is_open Call.init) with false in *.
    rewrite xorb_false_r in *. done.
Qed.

Lemma patient_toggles_alternate_witness :
  let es := [Call.Click; Call.SocketOpen 0; Call.Click; Call.SocketClose 0;
             Call.Click; Call.SocketOpen 1] in
  Call.patient Call.init es = true /\
  es = Call.toggles 3 Call.init /\
  Call.callBtn_textContent (Call.run Call.init es) = Call.end_label /\
  Call.active (Call.run Call.init (take 4 es)) <= 1.
Proof.
  intros es.
  assert (Call.patient Call.init es = true) as Hpat by reflexivity.
  assert (es = Call.toggles 3 Call.init) as Hes by reflexivity.
  split; [exact Hpat|]. split; [exact Hes|].
  destruct (patient_toggles_alternate es Hpat) as [Hall Hn].
  split.
  - exact (proj2 (Hn 3 Hes)).
  - exact (proj1 (Hall 4)).
Defined.

Module ChatFacts.
Import Chat.

Lemma append_converts (sender : string) (text : JS.value) (p : page) :
  JS.to_string_throws text = false ->
  appendMessage sender text p =
    (Page (chatbox p ++ [message_div sender text]) (userInput_value p)
          (requests p) (console p),
     JS.Normal tt).
Proof.
  intros H. unfold appendMessage, mbind, prog_bind, lift, JS.ToString.
  by rewrite H.
Qed.

Lemma append_throws (sender : string) (text : JS.value) (p : page) :
  JS.to_string_throws text = true ->
  appendMessage sender text p = (p, JS.Throw "TypeError").
Proof.
  intros H. unfold appendMessage, mbind, prog_bind, lift, JS.ToString.
  by rewrite H.
Qed.

(** The [catch] clause, entered with [err]. *)
Lemma catch_clause (err : string) (q : page) :
  (console_error "Chat error:" err;; appendMessage "flossy" (JS.Str error_text)) q =
    (Page (chatbox q ++ [message_div "flossy" (JS.Str error_text)])
          (userInput_value q) (requests q)
          (console q ++ [ConsoleError "Chat error:" err]),
     JS.Normal tt).
Proof. reflexivity. Qed.

Lemma send_resume_failed (o : fetch_result) (q : page) :
  failed o = true ->
  exists err,
    exec (send_resume o) q =
      Page (chatbox q ++ [message_div "flossy" (JS.Str error_text)])
           (userInput_value q) (requests q)
           (console q ++ [ConsoleError "Chat error:" err]).
Proof.
  destruct o as [err|status [data|err]]; simpl.
  - intros _. by exists err.
  - destruct data; try discriminate; intros _; by exists "TypeError".
  - intros _. by exists err.
Qed.

(** The body decodes to [data], which is neither [null] nor [undefined]:
    the [try] block reaches [appendMessage] with [data.reply] or the
    placeholder. *)
Lemma send_resume_reaches_append (status : Z) (data : JS.value) (q : page) :
  failed (Response status (JS.Normal data)) = false ->
  exists reply,
    JS.get data "reply" = JS.Normal reply /\
    send_resume (Response status (JS.Normal data)) q =
      try_catch (appendMessage "flossy" (reply || JS.Str placeholder)%js)
        (fun err => console_error "Chat error:" err;;
                    appendMessage "flossy" (JS.Str error_text)) q.
Proof.
  intros Hok. destruct data; try discriminate; eexists; split; reflexivity.
Qed.

Lemma send_resume_decoded (o : fetch_result) (q : page) :
  failed o = false -> unprintable_reply o = false ->
  exists status data reply,
    o = Response status (JS.Normal data) /\
    JS.get data "reply" = JS.Normal reply /\
    JS.to_string_throws (reply || JS.Str placeholder)%js = false /\
    exec (send_resume o) q =
      Page (chatbox q ++ [message_div "flossy" (reply || JS.Str placeholder)%js])
           (userInput_value q) (requests q) (console q).
Proof.
  destruct o as [err|status [data|err]]; try discriminate.
  intros Hok Hprint. exists status, data.
  destruct (send_resume_reaches_append status data q Hok) as (reply & Hget & Hrun).
  exists reply. unfold unprintable_reply in Hprint. rewrite Hget in Hprint.
  split; [done|]. split; [done|]. split; [done|].
  unfold exec. rewrite Hrun. unfold try_catch.
  by rewrite (append_converts _ _ _ Hprint).
Qed.

Lemma send_resume_unprintable (o : fetch_result) (q : page) :
  unprintable_reply o = true ->
  exec (send_resume o) q =
    Page (chatbox q ++ [message_div "flossy" (JS.Str error_text)])
         (userInput_value q) (requests q)
         (console q ++ [ConsoleError "Chat error:" "TypeError"]).
Proof.
  destruct o as [err|status [data|err]]; try discriminate.
  intros Hprint.
  assert (failed (Response status (JS.Normal data)) = false) as Hok
    by (destruct data; done).
  destruct (send_resume_reaches_append status data q Hok) as (reply & Hget & Hrun).
  unfold unprintable_reply in Hprint. rewrite Hget in Hprint.
  unfold exec. rewrite Hrun. unfold try_catch.
  by rewrite (append_throws _ _ _ Hprint), catch_clause.
Qed.

Lemma send_click_blank (p : page) :
  trim (userInput_value p) = "" -> send_click p = (p, JS.Normal false).
Proof.
  intros H. unfold send_click, gets, mbind, prog_bind. cbv beta iota.
  by rewrite H.
Qed.

Lemma send_click_text (p : page) :
  trim (userInput_value p) <> "" ->
  send_click p =
    (Page (chatbox p ++ [message_div "user" (JS.Str (trim (userInput_value p)))])
          ""
          (requests p ++ [Request "/chat" "POST" "application/json"
                                  (trim (userInput_value p))])
          (console p),
     JS.Normal true).
Proof.
  intros H. unfold send_click, gets, mbind, prog_bind. cbv beta iota.
  destruct (String.eqb_spec (trim (userInput_value p)) ""); [done|].
  reflexivity.
Qed.

End ChatFacts.

(** C3, as stated, fails on the code: the listener never reads the
    status of the response.  A 500 response whose body is a JSON object
    without [reply] gets the placeholder, and a 503 response whose body
    carries a [reply] gets that reply; neither gets the error message. *)
Lemma error_status_with_json_body_is_not_a_failure :
  let detail := JS.Obj [("detail", JS.Str "Internal Server Error")] in
  let p := exec (Chat.send (Chat.Response 500 (JS.Normal detail))) (Chat.init "hi") in
  let busy := JS.Obj [("reply", JS.Str "busy")] in
  let q := exec (Chat.send (Chat.Response 503 (JS.Normal busy))) (Chat.init "hi") in
  Chat.ok 500 = false /\ Chat.ok 503 = false /\
  Chat.chatbox p = [Chat.message_div "user" (JS.Str "hi");
                    Chat.message_div "flossy" (JS.Str Chat.placeholder)] /\
  Chat.chatbox q = [Chat.message_div "user" (JS.Str "hi");
                    Chat.message_div "flossy" (JS.Str "busy")] /\
  Chat.message_div "flossy" (JS.Str Chat.placeholder)
    <> Chat.message_div "flossy" (JS.Str Chat.error_text) /\
  Chat.message_div "flossy" (JS.Str "busy")
    <> Chat.message_div "flossy" (JS.Str Chat.error_text).
Proof. vm_compute. repeat split; discriminate. Qed.

(** C3, amended.  When the request fails with a network error, or the
    body of the response does not decode as JSON or decodes to [null],
    the resumed listener appends the fixed error message and nothing else
    to the transcript, and issues no further request; the status of a
    response has no influence on what the listener does. *)
Theorem failed_send_appends_error (p : Chat.page) (o : Chat.fetch_result)
    (status status' : Z) (json : JS.completion JS.value) :
  Chat.failed o = true ->
  Chat.chatbox (exec (Chat.send_resume o) p)
    = Chat.chatbox p ++ [Chat.message_div "flossy" (JS.Str Chat.error_text)] /\
  Chat.requests (exec (Chat.send_resume o) p) = Chat.requests p /\
  exec (Chat.send_resume (Chat.Response status json)) p
    = exec (Chat.send_resume (Chat.Response status' json)) p.
Proof.
  intros Hfail.
  destruct (ChatFacts.send_resume_failed o p Hfail) as [err ->].
  repeat split.
Qed.

Lemma failed_send_appends_error_witness :
  let p := exec Chat.send_click (Chat.init "hi") in
  let o := Chat.Rejected "TypeError: Failed to fetch" in
  Chat.failed o = true /\
  Chat.chatbox (exec (Chat.send_resume o) p)
    = [Chat.message_div "user" (JS.Str "hi");
       Chat.message_div "flossy" (JS.Str Chat.error_text)] /\
  Chat.requests (exec (Chat.send_resume o) p) = Chat.requests p.
Proof.
  intros p o. split; [reflexivity|].
  destruct (failed_send_appends_error p o 200%Z 200%Z (JS.Throw "SyntaxError") eq_refl)
    as (Hbox & Hreq & _).
  split; [exact Hbox | exact Hreq].
Defined.


(** C5, as stated, fails on the code, failure being a network error or
    a response that is not 2xx: a send of [hi] whose request completes
    with status 500 and a JSON body appends the user entry followed by the
    agent entry with the placeholder; no entry with the fixed error text
    is appended. *)
Lemma error_status_send_appends_agent_entry :
  let o := Chat.Response 500 (JS.Normal (JS.Obj [("detail", JS.Str "Server Error")])) in
  let p := Chat.init "hi" in
  Chat.trim (Chat.userInput_value p) <> "" /\
  Chat.http_failure o = true /\
  Chat.chatbox (exec (Chat.send o) p)
    = [Chat.message_div "user" (JS.Str "hi");
       Chat.message_div "flossy" (JS.Str Chat.placeholder)] /\
  Chat.message_div "flossy" (JS.Str Chat.error_text)
    ∉ Chat.chatbox (exec (Chat.send o) p).
Proof.
  vm_compute. repeat split; try discriminate.
  intros H. repeat (apply elem_of_cons in H as [H|H]; [discriminate H|]).
  by apply elem_of_nil in H.
Qed.

(** C5, amended.  When the trimmed input [text] is not empty, the click
    appends one user-authored entry (right-aligned, blue) carrying [text]
    before the request goes out; the resumed listener appends, to whatever
    the transcript then is, one agent-authored entry (left-aligned, grey);
    a send that settles before anything else happens thus appends exactly
    these two, in that order.  The agent entry carries the reply, or the
    placeholder for a falsy reply, whenever the body decodes to a value
    other than [null] and that text converts to a string, whatever the
    status of the response; it carries the fixed error text when the
    request is rejected, the body does not decode or is [null], or the
    reply cannot be converted to a string. *)
Theorem send_appends_user_then_agent_entry (p : Chat.page) (o : Chat.fetch_result) :
  Chat.trim (Chat.userInput_value p) <> "" ->
  let text := Chat.trim (Chat.userInput_value p) in
  let span colours content :=
    "<span class=" +:+ Chat.dquote +:+ "inline-block px-3 py-2 rounded-xl "
    +:+ colours +:+ Chat.dquote +:+ ">" +:+ content +:+ "</span>" in
  let user_entry := Chat.Div "text-right my-1" (span "bg-blue-600 text-white" text) in
  let agent_entry answer :=
    Chat.Div "text-left my-1" (span "bg-gray-300 text-black" answer) in
  exists answer : string,
    Chat.chatbox (exec Chat.send_click p) = Chat.chatbox p ++ [user_entry] /\
    (forall q, Chat.chatbox (exec (Chat.send_resume o) q)
               = Chat.chatbox q ++ [agent_entry answer]) /\
    Chat.chatbox (exec (Chat.send o) p)
      = Chat.chatbox p ++ [user_entry; agent_entry answer] /\
    (forall status data reply shown,
       o = Chat.Response status (JS.Normal data) ->
       JS.get data "reply" = JS.Normal reply ->
       JS.ToString (reply || JS.Str Chat.placeholder)%js = JS.Normal shown ->
       answer = shown) /\
    (Chat.failed o = true \/ Chat.unprintable_reply o = true ->
     answer = Chat.error_text).
Proof.
  intros Htext text span user_entry agent_entry.
  pose proof (ChatFacts.send_click_text p Htext) as Hclick.
  assert (Chat.chatbox (exec Chat.send_click p) = Chat.chatbox p ++ [user_entry])
    as Hfirst by (unfold exec; by rewrite Hclick).
  assert (forall answer,
    (forall q, Chat.chatbox (exec (Chat.send_resume o) q)
               = Chat.chatbox q ++ [agent_entry answer]) ->
    Chat.chatbox (exec (Chat.send o) p)
      = Chat.chatbox p ++ [user_entry; agent_entry answer]) as Hsend.
  { intros answer Hres. unfold exec in *. unfold Chat.send, mbind, prog_bind.
    rewrite Hclick. cbv beta iota. rewrite Hres. simpl.
    by rewrite <- app_assoc. }
  assert (forall q, Chat.failed o = true \/ Chat.unprintable_reply o = true ->
            Chat.chatbox (exec (Chat.send_resume o) q)
            = Chat.chatbox q ++ [agent_entry Chat.error_text]) as Herr.
  { intros q [Hf|Hu].
    - by destruct (ChatFacts.send_resume_failed o q Hf) as [err ->].
    - by rewrite (ChatFacts.send_resume_unprintable o q Hu). }
  destruct (Chat.failed o) eqn:Hfail; [|destruct (Chat.unprintable_reply o) eqn:Hprint].
  - exists Chat.error_text. repeat split; auto.
    intros status data reply shown ->. destruct data; discriminate.
  - exists Chat.error_text. repeat split; auto.
    intros status data reply shown -> Hget Hshown.
    unfold Chat.unprintable_reply in Hprint. rewrite Hget in Hprint.
    unfold JS.ToString in Hshown. rewrite Hprint in Hshown. discriminate.
  - destruct (ChatFacts.send_resume_decoded o p Hfail Hprint)
      as (status & data & reply & -> & Hget & Hconv & _).
    exists (JS.to_string (reply || JS.Str Chat.placeholder)%js).
    assert (forall q, Chat.chatbox (exec (Chat.send_resume
                                            (Chat.Response status (JS.Normal data))) q)
               = Chat.chatbox q ++
                 [agent_entry (JS.to_string (reply || JS.Str Chat.placeholder)%js)])
      as Hres.
    { intros q.
      destruct (ChatFacts.send_resume_decoded _ q Hfail Hprint)
        as (status' & data' & reply' & [= <- <-] & Hget' & _ & ->).
      simpl. by replace reply' with reply by congruence. }
    repeat split; auto.
    + intros status' data' reply' shown [= -> ->] Hget' Hshown.
      replace reply' with reply in Hshown by congruence.
      unfold JS.ToString in Hshown. rewrite Hconv in Hshown. congruence.
    + intros [H|H]; discriminate.
Qed.

Lemma send_appends_user_then_agent_entry_witness :
  let p := Chat.init "  How often should I floss? " in
  let o := Chat.Response 404 (JS.Normal (JS.Obj [("reply", JS.Str "Daily.")])) in
  Chat.trim (Chat.userInput_value p) <> "" /\
  Chat.chatbox (exec (Chat.send o) p)
    = [Chat.message_div "user" (JS.Str "How often should I floss?");
       Chat.message_div "flossy" (JS.Str "Daily.")].
Proof.
  intros p o.
  assert (Chat.trim (Chat.userInput_value p) <> "") as Htext by (vm_compute; discriminate).
  split; [exact Htext|].
  destruct (send_appends_user_then_agent_entry p o Htext)
    as (answer & _ & _ & Hsend & Hok & _).
  rewrite Hsend.
  rewrite (Hok 404%Z _ (JS.Str "Daily.") "Daily." eq_refl eq_refl eq_refl).
  reflexivity.
Defined.

(** C6.  When the input is empty after trimming, the listener returns at
    once: the page (transcript, input, requests issued, console) is what
    it was, and no request is in flight, however a request would have
    settled. *)
Theorem blank_send_does_nothing (p : Chat.page) (o : Chat.fetch_result) :
  Chat.trim (Chat.userInput_value p) = "" ->
  Chat.send_click p = (p, JS.Normal false) /\
  exec (Chat.send o) p = p /\
  Chat.chatbox (exec (Chat.send o) p) = Chat.chatbox p /\
  Chat.requests (exec (Chat.send o) p) = Chat.requests p.
Proof.
  intros Hblank.
  pose proof (ChatFacts.send_click_blank p Hblank) as Hclick.
  assert (exec (Chat.send o) p = p) as Hsend
    by (unfold exec, Chat.send, mbind, prog_bind; by rewrite Hclick).
  by rewrite Hsend.
Qed.

Lemma blank_send_does_nothing_witness :
  let p := Chat.Page [Chat.message_div "user" (JS.Str "hi")]
                     (Chat.bytes [32; 9; 194; 160; 10]) [] [] in
  Chat.trim (Chat.userInput_value p) = "" /\
  exec (Chat.send (Chat.Rejected "offline")) p = p.
Proof.
  intros p.
  assert (Chat.trim (Chat.userInput_value p) = "") as Hblank by reflexivity.
  split; [exact Hblank|].
  exact (proj1 (proj2 (blank_send_does_nothing p (Chat.Rejected "offline") Hblank))).
Defined.

(** C10.  When the decoded body is an object whose [reply] is the empty
    string, or any other falsy value, the appended agent entry is the
    placeholder, which differs from the entry an empty text would give. *)
Theorem empty_reply_gets_placeholder (p : Chat.page) (status : Z)
    (fields : list (string * JS.value)) :
  JS.assoc "reply" fields = JS.Str "" \/ JS.truthy (JS.assoc "reply" fields) = false ->
  Chat.chatbox (exec (Chat.send_resume (Chat.Response status (JS.Normal (JS.Obj fields)))) p)
    = Chat.chatbox p ++ [Chat.message_div "flossy" (JS.Str Chat.placeholder)] /\
  Chat.message_div "flossy" (JS.Str Chat.placeholder)
    <> Chat.message_div "flossy" (JS.Str "").
Proof.
  intros Hreply.
  assert (JS.truthy (JS.assoc "reply" fields) = false) as Hfalsy
    by (destruct Hreply as [-> | H]; [reflexivity | exact H]).
  split; [|vm_compute; discriminate].
  unfold exec, Chat.send_resume, try_catch, mbind, prog_bind, lift. simpl.
  unfold JS.or_else. by rewrite Hfalsy.
Qed.

Lemma empty_reply_gets_placeholder_witness :
  let fields := [("reply", JS.Str "")] in
  JS.assoc "reply" fields = JS.Str "" /\
  Chat.chatbox (exec (Chat.send_resume (Chat.Response 200 (JS.Normal (JS.Obj fields))))
                     (Chat.init ""))
    = [Chat.message_div "flossy" (JS.Str Chat.placeholder)].
Proof.
  intros fields. split; [reflexivity|].
  exact (proj1 (empty_reply_gets_placeholder (Chat.init "") 200%Z fields
                  (or_introl eq_refl))).
Defined.

(** C9, as stated, fails on the code: with permission granted and the
    token request rejected, the listener shows no alert; the [catch]
    clause writes to the console only. *)
Lemma token_failure_shows_no_alert :
  let p := exec (Notify.requestEnable (JS.Normal "granted")
                                      (JS.Throw "messaging/token-subscribe-failed"))
                Notify.init in
  Notify.token_requests p = 1 /\ Notify.alerts p = [] /\
  Notify.console p = [Notify.ConsoleError "Error enabling notifications:"
                                          "messaging/token-subscribe-failed"].
Proof. repeat split. Qed.

(** C9, amended.  When permission is granted and the token request then
    fails with [err], the listener has asked for the token once, writes
    the generic message and [err] to the error console, and shows no
    alert. *)
Theorem token_failure_is_logged (p : Notify.page) (err : string) :
  let p' := exec (Notify.requestEnable (JS.Normal "granted") (JS.Throw err)) p in
  Notify.token_requests p' = S (Notify.token_requests p) /\
  Notify.console p'
    = Notify.console p ++ [Notify.ConsoleError "Error enabling notifications:" err] /\
  Notify.alerts p' = Notify.alerts p.
Proof. repeat split. Qed.

Module WorkerFacts.
Import Worker.

Lemma supplied_absent (fields : list (string * JS.value)) (section key : string) :
  JS.assoc section fields = JS.Undefined ->
  supplied (JS.Obj fields) section key = None.
Proof. intros H. unfold supplied. by rewrite H. Qed.

Lemma supplied_member (fields members : list (string * JS.value)) (section key : string) :
  JS.assoc section fields = JS.Obj members ->
  string_or_absent (JS.assoc key members) = true ->
  supplied (JS.Obj fields) section key =
    (if JS.truthy (JS.assoc key members)
     then Some (JS.to_string (JS.assoc key members)) else None).
Proof.
  intros H Hm. unfold supplied. rewrite H.
  destruct (JS.assoc key members); try discriminate; [done|].
  simpl. by destruct (String.eqb s "").
Qed.

Lemma member_supplied (fields : list (string * JS.value)) (keys : list string)
    (section key : string) :
  section_shaped keys (JS.assoc section fields) = true ->
  key ∈ keys ->
  JS.get (JS.assoc section fields || JS.Obj [])%js key
    = JS.Normal (member fields section key) /\
  string_or_absent (member fields section key) = true /\
  supplied (JS.Obj fields) section key =
    (if JS.truthy (member fields section key)
     then Some (JS.to_string (member fields section key)) else None).
Proof.
  intros Hshape Hkey. unfold member.
  destruct (JS.assoc section fields) as [| | | | |?|members] eqn:Hsec;
    try discriminate.
  - rewrite supplied_absent by done. done.
  - simpl in Hshape. rewrite forallb_forall in Hshape.
    assert (string_or_absent (JS.assoc key members) = true) as Hm
      by (apply Hshape; by apply list_elem_of_In).
    rewrite (supplied_member fields members) by done. done.
Qed.

Lemma choice_preferred (fields : list (string * JS.value)) (nkeys dkeys : list string)
    (key default : string) :
  section_shaped nkeys (JS.assoc "notification" fields) = true ->
  section_shaped dkeys (JS.assoc "data" fields) = true ->
  key ∈ nkeys -> key ∈ dkeys ->
  pick (member fields "notification" key) (member fields "data" key) default
    = preferred (JS.Obj fields) key default.
Proof.
  intros Hn Hd Hkn Hkd.
  destruct (member_supplied fields nkeys "notification" key Hn Hkn) as (_ & Hsn & Hn').
  destruct (member_supplied fields dkeys "data" key Hd Hkd) as (_ & Hsd & Hd').
  unfold preferred, pick, JS.or_else. rewrite Hn', Hd'.
  destruct (JS.truthy (member fields "notification" key)) eqn:Htn; simpl.
  - by rewrite Htn.
  - destruct (JS.truthy (member fields "data" key)) eqn:Htd; simpl; by rewrite ?Htd.
Qed.

(** A choice among members that are strings or absent, ending in a
    default string, is a string: its conversion completes. *)
Lemma choice_converts (a b : JS.value) (default : string) :
  string_or_absent a = true -> string_or_absent b = true ->
  JS.to_string_throws (a || b || JS.Str default)%js = false /\
  JS.to_string_throws (b || JS.Str default)%js = false.
Proof.
  intros Ha Hb.
  destruct a; try discriminate; destruct b; try discriminate;
    unfold JS.or_else; cbn; repeat case_match; done.
Qed.

(** What the handler shows for a payload of the interface's shape. *)
Lemma shown_for (fields : list (string * JS.value)) (s : state) :
  shaped (JS.Obj fields) = true ->
  exec (onBackgroundMessage (JS.Obj fields)) s =
    State (console s ++ ["📨 Received background message:"])
          (shown s ++
           [Notification
              (pick (member fields "notification" "title") (member fields "data" "title")
                    default_title)
              (pick (member fields "notification" "body") (member fields "data" "body")
                    default_body)
              (pick (member fields "notification" "icon") (member fields "data" "icon")
                    default_icon)
              (JS.to_string (member fields "data" "badge" || JS.Str default_badge)%js)
              (JS.Obj [("url", (member fields "data" "url" || JS.Str site_root)%js)])]).
Proof.
  intros Hshape. unfold shaped in Hshape. apply andb_prop in Hshape as [Hn Hd].
  unfold onBackgroundMessage, exec, mbind, prog_bind, lift, console_log,
    showNotification, modify. cbv beta iota. simpl JS.get at 1 2.
  cbv beta iota.
  repeat match goal with
  | |- context [JS.get (JS.assoc "notification" fields || JS.Obj [])%js ?k] =>
      let Hk := fresh in
      assert (k ∈ notification_keys) as Hk by (repeat constructor);
      rewrite (proj1 (member_supplied fields _ "notification" k Hn Hk)); clear Hk
  | |- context [JS.get (JS.assoc "data" fields || JS.Obj [])%js ?k] =>
      let Hk := fresh in
      assert (k ∈ data_keys) as Hk by (repeat constructor);
      rewrite (proj1 (member_supplied fields _ "data" k Hd Hk)); clear Hk
  end.
  assert (forall k, k ∈ notification_keys ->
            string_or_absent (member fields "notification" k) = true) as Hsn
    by (intros k Hk; apply (member_supplied fields _ "notification" k Hn Hk)).
  assert (forall k, k ∈ data_keys ->
            string_or_absent (member fields "data" k) = true) as Hsd
    by (intros k Hk; apply (member_supplied fields _ "data" k Hd Hk)).
  assert (forall k default, k ∈ notification_keys -> k ∈ data_keys ->
            JS.to_string_throws
              (member fields "notification" k || member fields "data" k
               || JS.Str default)%js = false) as Hboth
    by (intros k default Hkn Hkd; by apply choice_converts; auto).
  assert (JS.to_string_throws
            (member fields "data" "badge" || JS.Str default_badge)%js = false)
    as Hbadge.
  { apply (choice_converts JS.Undefined); [done|].
    apply Hsd. repeat constructor. }
  cbv beta iota zeta.
  rewrite !Hboth, Hbadge by repeat constructor.
  reflexivity.
Qed.

Lemma visit_find (n : notification) (u : JS.value) (clientList : list client) :
  data_url n = JS.Normal u ->
  visit n clientList =
    JS.Normal
      (match List.find has_focus clientList with
       | Some c => Some (with_url (Navigate (client_id c)) u ++ [Focus (client_id c)])
       | None => None
       end).
Proof.
  intros Hu. induction clientList as [|c rest IH]; [done|].
  simpl. destruct (has_focus c); [|exact IH].
  by rewrite Hu.
Qed.

(** The URL stored with the notification is the one the payload
    supplies, or the site root. *)
Lemma stored_url (fields : list (string * JS.value)) :
  shaped (JS.Obj fields) = true ->
  let u := (member fields "data" "url" || JS.Str site_root)%js in
  JS.truthy u = true /\
  JS.to_string u = default site_root (supplied (JS.Obj fields) "data" "url") /\
  forall request, with_url request u = [request (JS.to_string u)].
Proof.
  intros Hshape u. unfold shaped in Hshape. apply andb_prop in Hshape as [_ Hd].
  assert ("url" ∈ data_keys) as Hk by (repeat constructor).
  destruct (member_supplied fields data_keys "data" "url" Hd Hk) as (_ & Hs & Hsup).
  assert (JS.truthy u = true) as Htruthy.
  { subst u. unfold JS.or_else.
    by destruct (JS.truthy (member fields "data" "url")) eqn:Ht. }
  split; [done|]. split.
  - rewrite Hsup. subst u. unfold JS.or_else.
    by destruct (JS.truthy (member fields "data" "url")).
  - intros request. unfold with_url, JS.ToString. rewrite Htruthy.
    assert (JS.to_string_throws u = false) as ->; [|done].
    apply (choice_converts JS.Undefined); done.
Qed.

End WorkerFacts.

(** C7.  For a payload of the interface's shape the handler displays one
    notification; its title is the notification section's title when that
    is supplied, else the data section's, else the default title, and its
    body likewise.  For [{"notification": {"title": "Reminder", "body":
    "Brush your teeth"}}] these are [Reminder] and [Brush your teeth]; for
    [{"data": {"title": "T"}}] they are [T] and the default body. *)
Theorem background_message_title_and_body (payload : JS.value) (s : Worker.state) :
  Worker.shaped payload = true ->
  exists n : Worker.notification,
    Worker.shown (exec (Worker.onBackgroundMessage payload) s) = Worker.shown s ++ [n] /\
    Worker.title n = Worker.preferred payload "title" Worker.default_title /\
    Worker.body n = Worker.preferred payload "body" Worker.default_body /\
    (payload = JS.Obj [("notification",
                        JS.Obj [("title", JS.Str "Reminder");
                                ("body", JS.Str "Brush your teeth")])] ->
     Worker.title n = "Reminder" /\ Worker.body n = "Brush your teeth") /\
    (payload = JS.Obj [("data", JS.Obj [("title", JS.Str "T")])] ->
     Worker.title n = "T" /\ Worker.body n = Worker.default_body).
Proof.
  intros Hshape. destruct payload as [| | | | | |fields]; try discriminate.
  rewrite (WorkerFacts.shown_for fields s Hshape). eexists. split; [reflexivity|].
  pose proof Hshape as Hs. unfold Worker.shaped in Hs.
  apply andb_prop in Hs as [Hn Hd].
  cbn [Worker.title Worker.body].
  rewrite !(WorkerFacts.choice_preferred fields _ _ _ _ Hn Hd) by repeat constructor.
  split; [reflexivity|]. split; [reflexivity|].
  split; intros [= ->]; split; reflexivity.
Qed.

Lemma background_message_title_and_body_witness :
  let payload := JS.Obj [("data", JS.Obj [("title", JS.Str "T")])] in
  Worker.shaped payload = true /\
  exists n : Worker.notification,
    Worker.shown (exec (Worker.onBackgroundMessage payload) Worker.init) = [n] /\
    Worker.title n = "T" /\ Worker.body n = Worker.default_body.
Proof.
  intros payload. split; [reflexivity|].
  destruct (background_message_title_and_body payload Worker.init eq_refl)
    as (n & Hshown & _ & _ & _ & Hdata).
  exists n. split; [exact Hshown | exact (Hdata eq_refl)].
Defined.

(** C8.  For a payload of the interface's shape, a click on the
    notification the handler displayed for it closes the notification and
    then turns to the URL the payload's data section supplies, or to the
    site root when it supplies none: the first client that can be focused
    is navigated to that URL and focused; when there is none, a window is
    opened on that URL. *)
Theorem notification_click_target (payload : JS.value) (s : Worker.state)
    (clientList : list Worker.client) (openWindow : bool) :
  Worker.shaped payload = true ->
  exists n : Worker.notification,
    Worker.shown (exec (Worker.onBackgroundMessage payload) s) = Worker.shown s ++ [n] /\
    let url := default Worker.site_root (Worker.supplied payload "data" "url") in
    Worker.notificationclick n clientList openWindow =
      JS.Normal
        (Worker.clicked ++
         match List.find Worker.has_focus clientList with
         | Some c => [Worker.Navigate (Worker.client_id c) url;
                      Worker.Focus (Worker.client_id c)]
         | None => if openWindow then [Worker.OpenWindow url] else []
         end).
Proof.
  intros Hshape. destruct payload as [| | | | | |fields]; try discriminate.
  rewrite (WorkerFacts.shown_for fields s Hshape). eexists. split; [reflexivity|].
  destruct (WorkerFacts.stored_url fields Hshape) as (Htruthy & Hurl & Hwith).
  intros url. subst url. rewrite <- Hurl.
  unfold Worker.notificationclick.
  rewrite (WorkerFacts.visit_find _
             (Worker.member fields "data" "url" || JS.Str Worker.site_root)%js
             clientList) by reflexivity.
  destruct (List.find Worker.has_focus clientList) as [c|]; simpl.
  - unfold mret, JS.completion_ret. by rewrite Hwith.
  - destruct openWindow; simpl; [|done].
    unfold mret, JS.completion_ret. by rewrite Hwith.
Qed.

Lemma notification_click_target_witness :
  let payload := JS.Obj [("data", JS.Obj [("url", JS.Str "/reminders")])] in
  let tab := Worker.Client 7 true in
  Worker.shaped payload = true /\
  exists n : Worker.notification,
    Worker.shown (exec (Worker.onBackgroundMessage payload) Worker.init) = [n] /\
    Worker.notificationclick n [tab] true =
      JS.Normal (Worker.clicked ++ [Worker.Navigate 7 "/reminders"; Worker.Focus 7]).
Proof.
  intros payload tab. split; [reflexivity|].
  destruct (notification_click_target payload Worker.init [tab] true eq_refl)
    as (n & Hshown & Hclick).
  exists n. split; [exact Hshown | exact Hclick].
Defined.

(** ** Further properties of the call session *)

Module CallMore.
Import Call.

Lemma run_cons (p : page) (e : event) (es : list event) :
  run p (e :: es) = run (step p e) es.
Proof. reflexivity. Qed.

(** An invariant that every step keeps holds after every trace. *)
Lemma run_invariant (P : page -> Prop) :
  (forall p e, P p -> P (step p e)) ->
  forall es p, P p -> P (run p es).
Proof.
  intros Hstep es. induction es as [|e es IH]; intros p Hp; [done|].
  rewrite run_cons. apply IH, Hstep, Hp.
Qed.

Lemma click_not_open (p : page) :
  ws_is_open p = false ->
  click p = new_ws p /\ ws_is_open (click p) = false
  /\ active (click p) = S (active p).
Proof.
  intros Hopen. unfold click. rewrite Hopen. split; [done|]. split.
  - unfold ws_is_open, new_ws. simpl.
    rewrite list_lookup_middle by done. by rewrite bool_decide_eq_false_2.
  - unfold active, new_ws. simpl. rewrite filter_app, length_app. simpl. lia.
Qed.

Lemma step_label (p : page) (e : event) :
  callBtn_textContent (step p e) = end_label \/
  callBtn_textContent (step p e) = idle_glyph \/
  callBtn_textContent (step p e) = callBtn_textContent p.
Proof.
  destruct e as [|i|i d|i]; simpl.
  - unfold click. destruct (ws_is_open p); auto.
  - case_bool_decide; auto.
  - case_bool_decide; [destruct d|]; auto.
  - destruct (sockets p !! i) as [[]|]; auto.
Qed.

Lemma wire_run_invariant (P : page -> Prop) :
  (forall p w, P p -> P (wire_step p w)) ->
  forall ws p, P p -> P (wire_run p ws).
Proof.
  intros Hstep ws. induction ws as [|w ws IH]; intros p Hp; [done|].
  apply (IH (wire_step p w)), Hstep, Hp.
Qed.

Lemma live_insert (p : page) (i : nat) (st : ready_state) :
  st = OPEN \/ st = CLOSING -> i < length (sockets p) ->
  live (set_sockets (<[i := st]>) p).
Proof.
  intros Hst Hlt. exists i, st. split; [|done]. simpl.
  by apply list_lookup_insert_eq.
Qed.

Lemma step_live (p : page) (e : event) :
  (callBtn_textContent p = end_label -> live p) ->
  callBtn_textContent (step p e) = end_label -> live (step p e).
Proof.
  intros Hinv. destruct e as [|i|i d|i]; simpl.
  - unfold click. destruct (ws_is_open p) eqn:Hopen; [discriminate|].
    simpl. intros Hlab. destruct (Hinv Hlab) as (i & st & Hi & Hst).
    exists i, st. split; [|done]. simpl.
    rewrite lookup_app_l; [done|]. by apply lookup_lt_Some in Hi.
  - case_bool_decide as Hi; [|done]. intros _.
    destruct (live_insert p i OPEN) as (j & st & Hj & Hst); [by left| |].
    + by apply lookup_lt_Some in Hi.
    + by exists j, st.
  - case_bool_decide; [destruct d|]; done.
  - destruct (sockets p !! i) as [[]|]; done.
Qed.

Lemma wire_step_live (p : page) (w : wire_event) :
  (callBtn_textContent p = end_label -> live p) ->
  callBtn_textContent (wire_step p w) = end_label -> live (wire_step p w).
Proof.
  intros Hinv. destruct w as [e|i]; [by apply step_live|]. simpl.
  case_bool_decide as Hi; [|done]. intros _.
  apply live_insert; [by right|]. by apply lookup_lt_Some in Hi.
Qed.

Lemma wire_step_label (p : page) (w : wire_event) :
  callBtn_textContent (wire_step p w) = end_label \/
  callBtn_textContent (wire_step p w) = idle_glyph \/
  callBtn_textContent (wire_step p w) = callBtn_textContent p.
Proof.
  destruct w as [e|i]; [apply step_label|]. simpl. case_bool_decide; auto.
Qed.

Lemma step_handle (p : page) (e : event) :
  handle_is_newest p -> handle_is_newest (step p e).
Proof.
  unfold handle_is_newest. intros Hinv. destruct e as [|i|i d|i]; simpl.
  - unfold click. destruct (ws_is_open p) eqn:Hopen.
    + unfold close_ws. destruct (ws p) as [j|] eqn:Hws; simpl; rewrite Hws.
      * by rewrite length_insert.
      * done.
    + simpl. rewrite length_app. simpl. lia.
  - case_bool_decide; [|done]. simpl. destruct (ws p); [|by rewrite Hinv].
    by rewrite length_insert.
  - case_bool_decide; [destruct d|]; done.
  - destruct (sockets p !! i) as [[]|] eqn:Hi; try done; simpl;
      (destruct (ws p); [by rewrite length_insert|]);
      rewrite Hinv in Hi; done.
Qed.

Lemma step_audio (p : page) (e : event) :
  plays_newest_url p -> plays_newest_url (step p e).
Proof.
  unfold plays_newest_url. intros Hinv. destruct e as [|i|i d|i]; simpl.
  - unfold click. by destruct (ws_is_open p); [unfold close_ws; destruct (ws p)|].
  - by case_bool_decide.
  - case_bool_decide; [|done]. destruct d; [|done]. simpl.
    rewrite length_app. simpl. lia.
  - by destruct (sockets p !! i) as [[]|].
Qed.

Lemma run_object_urls (es : list event) (p : page) :
  object_urls (run p es) = object_urls p ++ delivered_blobs p es.
Proof.
  revert p. induction es as [|e es IH]; intros p.
  - simpl. by rewrite app_nil_r.
  - rewrite run_cons, IH. cbn [delivered_blobs]. rewrite app_assoc. f_equal.
    destruct e as [|i|i d|i]; simpl; rewrite ?app_nil_r.
    + unfold click. by destruct (ws_is_open p); [unfold close_ws; destruct (ws p)|].
    + by case_bool_decide.
    + destruct d; case_bool_decide; simpl; by rewrite ?app_nil_r.
    + by destruct (sockets p !! i) as [[]|].
Qed.

End CallMore.

(** X1.  Clicks that come while the handle is not open each construct a
    further socket and close none: after [n] clicks with no socket event
    in between, starting from a page whose handle is not open, [n] more
    connections are active. *)
Theorem rapid_clicks_stack_connections (p : Call.page) (n : nat) :
  Call.ws_is_open p = false ->
  Call.active (Call.run p (replicate n Call.Click)) = Call.active p + n /\
  Call.sockets (Call.run p (replicate n Call.Click))
    = Call.sockets p ++ replicate n Call.CONNECTING.
Proof.
  revert p. induction n as [|n IH]; intros p Hopen.
  - simpl. by rewrite Nat.add_0_r, app_nil_r.
  - destruct (CallMore.click_not_open p Hopen) as (Hclick & Hopen' & Hact).
    cbn [replicate]. rewrite CallMore.run_cons. cbn [Call.step].
    destruct (IH _ Hopen') as [-> ->]. rewrite Hact, Hclick. simpl.
    split; [lia|]. by rewrite <- app_assoc.
Qed.

Lemma rapid_clicks_stack_connections_witness :
  Call.ws_is_open Call.init = false /\
  Call.active (Call.run Call.init (replicate 5 Call.Click)) = 5.
Proof.
  split; [reflexivity|].
  exact (proj1 (rapid_clicks_stack_connections Call.init 5 eq_refl)).
Defined.

(** X2.  After every trace of clicks, socket events and closing
    handshakes started by the server, patient or not, the button shows
    one of its two labels, and when it shows the end-call label some
    connection has been opened and is not closed yet: it is open or in
    its closing handshake. *)
Theorem end_label_means_live_connection (ws : list Call.wire_event) :
  let p := Call.wire_run Call.init ws in
  (Call.callBtn_textContent p = Call.end_label \/
   Call.callBtn_textContent p = Call.idle_glyph) /\
  (Call.callBtn_textContent p = Call.end_label ->
   exists i st, Call.sockets p !! i = Some st /\ (st = Call.OPEN \/ st = Call.CLOSING)).
Proof.
  apply (CallMore.wire_run_invariant (fun p =>
    (Call.callBtn_textContent p = Call.end_label \/
     Call.callBtn_textContent p = Call.idle_glyph) /\
    (Call.callBtn_textContent p = Call.end_label -> Call.live p))).
  - intros p w [Hlab Hlive]. split.
    + destruct (CallMore.wire_step_label p w) as [H|[H|H]]; auto. by rewrite H.
    + by apply CallMore.wire_step_live.
  - split; [by right | discriminate].
Qed.

(** X3.  After every trace the handle [ws] refers to the socket that was
    constructed last (or no socket was ever constructed): a socket that a
    later click superseded can no longer be reached through the handle. *)
Theorem handle_refers_to_newest_socket (es : list Call.event) :
  Call.handle_is_newest (Call.run Call.init es).
Proof.
  apply (CallMore.run_invariant Call.handle_is_newest); [|reflexivity].
  intros p e. apply CallMore.step_handle.
Qed.

(** X4.  Every blob delivered by an open socket gets an object URL, in
    order of arrival, and none is ever released: the URLs after a trace
    are those before it followed by one per delivered blob; and the audio
    element plays the URL created last. *)
Theorem audio_plays_latest_blob (es : list Call.event) (p : Call.page) :
  Call.object_urls (Call.run p es)
    = Call.object_urls p ++ Call.delivered_blobs p es /\
  Call.plays_newest_url (Call.run Call.init es).
Proof.
  split; [apply CallMore.run_object_urls|].
  apply (CallMore.run_invariant Call.plays_newest_url); [|reflexivity].
  intros q e. apply CallMore.step_audio.
Qed.

(** X5.  The socket URL uses the secure scheme exactly when the page was
    loaded over [https:], and always addresses the page's own host. *)
Theorem wsUrl_secure_iff_https (protocol host : string) :
  (String.prefix "wss://" (Call.wsUrl protocol host) = true <-> protocol = "https:") /\
  (Call.wsUrl protocol host = "wss://" +:+ host +:+ "/ws/agent" \/
   Call.wsUrl protocol host = "ws://" +:+ host +:+ "/ws/agent").
Proof.
  unfold Call.wsUrl, Call.wsProto.
  destruct (String.eqb_spec protocol "https:") as [->|Hne]; simpl.
  - split; [split; [reflexivity | intros _; by destruct host] | left; reflexivity].
  - split; [|by right]. split; [discriminate | done].
Qed.

(** ** Further properties of the notification opt-in *)

(** X6.  Whatever the host answers other than ["granted"] (a denial, or
    a dismissed prompt), the listener shows the denial notice and nothing
    else: no token is requested and nothing is logged. *)
Theorem denied_permission_requests_no_token (permission : string)
    (token_answer : JS.completion string) (p : Notify.page) :
  permission <> "granted" ->
  let p' := exec (Notify.requestEnable (JS.Normal permission) token_answer) p in
  Notify.alerts p' = Notify.alerts p ++ ["Permission denied for notifications."] /\
  Notify.token_requests p' = Notify.token_requests p /\
  Notify.console p' = Notify.console p.
Proof.
  intros Hne. unfold exec, Notify.requestEnable, try_catch, mbind, prog_bind.
  cbn [Notify.requestPermission]. cbv beta iota.
  destruct (String.eqb_spec permission "granted"); [done|]. repeat split.
Qed.

Lemma denied_permission_requests_no_token_witness :
  "default" <> "granted" /\
  Notify.alerts (exec (Notify.requestEnable (JS.Normal "default") (JS.Normal "t"))
                      Notify.init)
    = ["Permission denied for notifications."].
Proof.
  assert ("default" <> "granted") as Hne by discriminate.
  split; [exact Hne|].
  exact (proj1 (denied_permission_requests_no_token "default" (JS.Normal "t")
                  Notify.init Hne)).
Defined.

Lemma list_grows {A} (l : list A) (x : A) : l <> l ++ [x].
Proof.
  intros H. apply (f_equal length) in H. rewrite length_app in H.
  simpl in H. lia.
Qed.

(** Closes the side goals about which alert, if any, was appended. *)
Ltac close_alerts :=
  try done; try congruence;
  try match goal with
  | H : ?l = ?l ++ [_] |- _ => by apply list_grows in H
  | H : ?l ++ [_] = ?l ++ [_] |- _ => apply app_inv_head in H; discriminate
  | |- _ /\ (exists _, _) -> _ => intros [? [? ?]]; congruence
  end.

(** X7.  However the host and the SDK answer, the listener completes
    without throwing, asks for permission exactly once, asks for a token
    exactly when permission was granted, and shows the confirmation
    exactly when permission was granted and a token was obtained. *)
Theorem requestEnable_never_throws (permission_answer token_answer : JS.completion string)
    (p : Notify.page) :
  let r := Notify.requestEnable permission_answer token_answer p in
  r.2 = JS.Normal tt /\
  Notify.permission_requests r.1 = S (Notify.permission_requests p) /\
  (permission_answer = JS.Normal "granted" ->
   Notify.token_requests r.1 = S (Notify.token_requests p)) /\
  (permission_answer <> JS.Normal "granted" ->
   Notify.token_requests r.1 = Notify.token_requests p) /\
  (Notify.alerts r.1 = Notify.alerts p ++ ["Notifications enabled!"] <->
   permission_answer = JS.Normal "granted" /\ exists token, token_answer = JS.Normal token).
Proof.
  unfold Notify.requestEnable, try_catch, mbind, prog_bind.
  destruct permission_answer as [permission|err]; cbn [Notify.requestPermission];
    cbv beta iota.
  - destruct (String.eqb_spec permission "granted") as [->|Hne].
    + destruct token_answer as [token|err]; simpl;
        repeat split; eauto; close_alerts.
    + simpl. repeat split; close_alerts.
  - simpl. repeat split; close_alerts.
Qed.

(** X8.  When the permission request itself fails with [err], the
    listener writes the generic message and [err] to the error console;
    it shows no alert and requests no token. *)
Theorem permission_failure_is_logged (err : string)
    (token_answer : JS.completion string) (p : Notify.page) :
  let p' := exec (Notify.requestEnable (JS.Throw err) token_answer) p in
  Notify.console p'
    = Notify.console p ++ [Notify.ConsoleError "Error enabling notifications:" err] /\
  Notify.alerts p' = Notify.alerts p /\
  Notify.token_requests p' = Notify.token_requests p.
Proof. repeat split. Qed.

(** X9.  The listener keeps no state of its own: what one click adds to
    the alerts, the console and the call counts does not depend on what
    earlier clicks left on the page. *)
Theorem requestEnable_ignores_history (permission_answer token_answer : JS.completion string)
    (p : Notify.page) :
  let fresh := exec (Notify.requestEnable permission_answer token_answer) Notify.init in
  let p' := exec (Notify.requestEnable permission_answer token_answer) p in
  Notify.alerts p' = Notify.alerts p ++ Notify.alerts fresh /\
  Notify.console p' = Notify.console p ++ Notify.console fresh /\
  Notify.permission_requests p'
    = Notify.permission_requests p + Notify.permission_requests fresh /\
  Notify.token_requests p' = Notify.token_requests p + Notify.token_requests fresh.
Proof.
  unfold exec, Notify.requestEnable, try_catch, mbind, prog_bind.
  destruct permission_answer as [permission|err]; cbn [Notify.requestPermission];
    cbv beta iota.
  - destruct (String.eqb permission "granted").
    + destruct token_answer; simpl; rewrite ?app_nil_r; repeat split; lia.
    + simpl. rewrite ?app_nil_r. repeat split; lia.
  - simpl. rewrite ?app_nil_r. repeat split; lia.
Qed.

(** ** Further properties of the chat box *)

Module ChatMore.
Import Chat.

(** What the resumed listener does, in one equation: it appends one
    entry of the agent side, logs at most one error and completes. *)
Lemma send_resume_effect (o : fetch_result) (q : page) :
  exists (v : JS.value) (log : list console_entry),
    send_resume o q =
      (Page (chatbox q ++ [message_div "flossy" v]) (userInput_value q)
            (requests q) (console q ++ log),
       JS.Normal tt)
    /\ (failed o || unprintable_reply o = true ->
        exists err, log = [ConsoleError "Chat error:" err])
    /\ (failed o || unprintable_reply o = false -> log = []).
Proof.
  assert (forall m : prog page unit, m q = (exec m q, (m q).2)) as Hpair
    by (intros m; unfold exec; by destruct (m q)).
  assert ((send_resume o q).2 = JS.Normal tt) as Hdone.
  { destruct o as [err|status [data|err]]; try done.
    destruct (failed (Response status (JS.Normal data))) eqn:Hf.
    - by destruct data.
    - destruct (ChatFacts.send_resume_reaches_append status data q Hf)
        as (reply & _ & ->).
      unfold try_catch.
      destruct (JS.to_string_throws (reply || JS.Str placeholder)%js) eqn:Hc.
      + by rewrite (ChatFacts.append_throws _ _ _ Hc).
      + by rewrite (ChatFacts.append_converts _ _ _ Hc). }
  rewrite (Hpair (send_resume o)), Hdone.
  destruct (failed o) eqn:Hf; [|destruct (unprintable_reply o) eqn:Hu]; simpl.
  - destruct (ChatFacts.send_resume_failed o q Hf) as [err ->].
    eexists _, _. split; [reflexivity|]. split; [eauto|discriminate].
  - rewrite (ChatFacts.send_resume_unprintable o q Hu).
    eexists _, _. split; [reflexivity|]. split; [eauto|discriminate].
  - destruct (ChatFacts.send_resume_decoded o q Hf Hu)
      as (status & data & reply & _ & _ & _ & ->).
    eexists _, []. rewrite app_nil_r. split; [reflexivity|].
    split; [discriminate|done].
Qed.

Lemma trim_empty : trim "" = "".
Proof. reflexivity. Qed.

Lemma length_spaces (n : nat) : String.length (spaces n) = n.
Proof. induction n; simpl; congruence. Qed.

Lemma trim_start_spaces (fuel n : nat) :
  n <= fuel -> trim_start_fuel fuel white_space (spaces n) = "".
Proof.
  revert n. induction fuel as [|fuel IH]; intros [|n] Hle; try done; try lia.
  cbn [trim_start_fuel spaces].
  change (strip_any white_space (String (Ascii.ascii_of_nat 32) (spaces n)))
    with (Some (spaces n)).
  apply IH. lia.
Qed.

Lemma trim_spaces (n : nat) : trim (spaces n) = "".
Proof.
  unfold trim, trim_start. rewrite length_spaces, trim_start_spaces by lia.
  reflexivity.
Qed.

(** What one click on send does, settled as [o], in one equation. *)
Lemma send_effect (o : fetch_result) (p : page) :
  (send o p).2 = JS.Normal tt /\
  if String.eqb (trim (userInput_value p)) "" then exec (send o) p = p
  else exists v log,
    exec (send o) p =
      Page (chatbox p ++ [message_div "user" (JS.Str (trim (userInput_value p)));
                          message_div "flossy" v])
           "" (requests p ++ [Request "/chat" "POST" "application/json"
                                      (trim (userInput_value p))])
           (console p ++ log).
Proof.
  unfold exec, send, mbind, prog_bind.
  destruct (String.eqb_spec (trim (userInput_value p)) "") as [Hblank|Htext].
  - by rewrite (ChatFacts.send_click_blank p Hblank).
  - rewrite (ChatFacts.send_click_text p Htext). cbv beta iota.
    match goal with |- context [send_resume o ?q] =>
      destruct (send_resume_effect o q) as (v & log & -> & _) end.
    simpl. split; [done|]. exists v, log. by rewrite <- app_assoc.
Qed.

End ChatMore.

(** X10.  Neither part of the send listener throws, and each only adds
    to the transcript: whatever the page and however the request settled,
    the transcript before is a prefix of the transcript after, so no entry
    is ever edited or removed, also when other handlers run in between. *)
Theorem transcript_is_append_only (o : Chat.fetch_result) (p : Chat.page) :
  (exists in_flight, (Chat.send_click p).2 = JS.Normal in_flight) /\
  (Chat.send_resume o p).2 = JS.Normal tt /\
  Chat.chatbox p `prefix_of` Chat.chatbox (exec Chat.send_click p) /\
  Chat.chatbox p `prefix_of` Chat.chatbox (exec (Chat.send_resume o) p).
Proof.
  destruct (ChatMore.send_resume_effect o p) as (v & log & Hres & _).
  unfold exec. rewrite Hres. simpl.
  destruct (String.eqb_spec (Chat.trim (Chat.userInput_value p)) "") as [Hb|Ht].
  - rewrite (ChatFacts.send_click_blank p Hb). simpl.
    repeat split; eauto; by apply prefix_app_r.
  - rewrite (ChatFacts.send_click_text p Ht). simpl.
    repeat split; eauto; by apply prefix_app_r.
Qed.

(** X11.  A click on send clears the input, so a second click that comes
    before the user types again does nothing: no second entry, no second
    request. *)
Theorem second_click_sends_nothing (p : Chat.page) :
  Chat.send_click (exec Chat.send_click p) = (exec Chat.send_click p, JS.Normal false).
Proof.
  destruct (String.eqb_spec (Chat.trim (Chat.userInput_value p)) "") as [Hb|Ht].
  - unfold exec. rewrite (ChatFacts.send_click_blank p Hb). simpl.
    by apply ChatFacts.send_click_blank.
  - unfold exec. rewrite (ChatFacts.send_click_text p Ht). simpl.
    by apply ChatFacts.send_click_blank.
Qed.

(** X12.  One send issues exactly one request when the trimmed input is
    not empty and none otherwise, however the request settles: a POST to
    [/chat] with JSON content type, carrying the trimmed text. *)
Theorem send_issues_one_request (o : Chat.fetch_result) (p : Chat.page) :
  Chat.requests (exec (Chat.send o) p)
    = Chat.requests p ++
      (if String.eqb (Chat.trim (Chat.userInput_value p)) "" then []
       else [Chat.Request "/chat" "POST" "application/json"
                          (Chat.trim (Chat.userInput_value p))]).
Proof.
  destruct (ChatMore.send_effect o p) as [_ H].
  destruct (String.eqb (Chat.trim (Chat.userInput_value p)) "").
  - by rewrite H, app_nil_r.
  - by destruct H as (v & log & ->).
Qed.

(** X13.  Over a whole conversation, each turn settled before the next,
    the listener never throws; the transcript grows by two entries per
    turn whose text is not blank and by none for the blank ones, and the
    requests issued are those of the turns that are not blank, in order. *)
Theorem session_adds_two_entries_per_turn (turns : list (string * Chat.fetch_result))
    (p : Chat.page) :
  (Chat.session turns p).2 = JS.Normal tt /\
  length (Chat.chatbox (exec (Chat.session turns) p))
    = length (Chat.chatbox p) + 2 * length (Chat.spoken turns) /\
  Chat.requests (exec (Chat.session turns) p)
    = Chat.requests p ++
      map (fun turn => Chat.Request "/chat" "POST" "application/json" (Chat.trim turn.1))
          (Chat.spoken turns).
Proof.
  revert p. induction turns as [|[typed o] rest IH]; intros p.
  - simpl. by rewrite Nat.add_0_r, app_nil_r.
  - set (q := Chat.Page (Chat.chatbox p) typed (Chat.requests p) (Chat.console p)).
    destruct (ChatMore.send_effect o q) as [Hok Heff].
    assert (Chat.session ((typed, o) :: rest) p
            = Chat.session rest (exec (Chat.send o) q)) as Hstep.
    { cbn [Chat.session]. unfold mbind, prog_bind, Chat.set_userInput_value, modify.
      fold q. unfold exec. destruct (Chat.send o q) as [q' r]. simpl in Hok.
      by rewrite Hok. }
    destruct (IH (exec (Chat.send o) q)) as (Hres & Hlen & Hreq).
    unfold exec in *. rewrite !Hstep. split; [exact Hres|]. rewrite Hlen, Hreq.
    unfold Chat.spoken. rewrite filter_cons. cbn [fst].
    change (Chat.userInput_value q) with typed in Heff.
    destruct (String.eqb_spec (Chat.trim typed) "") as [Hb|Ht].
    + rewrite decide_False by (intros H; by apply H). by rewrite Heff.
    + rewrite decide_True by done. destruct Heff as (v & log & ->). simpl.
      rewrite length_app. simpl. split; [lia|]. by rewrite <- app_assoc.
Qed.

(** X14.  With two requests in flight the answers are appended in the
    order in which the requests settle, not in the order of the
    questions: when the second settles first, its answer comes before the
    answer to the first. *)
Theorem answers_follow_arrival_order (p : Chat.page) (first second : string)
    (o1 o2 : Chat.fetch_result) :
  Chat.trim first <> "" -> Chat.trim second <> "" ->
  let typed t q := exec (Chat.set_userInput_value t) q in
  let p2 := exec Chat.send_click (typed second (exec Chat.send_click (typed first p))) in
  exists a1 a2 : Chat.div,
    (forall q, Chat.chatbox (exec (Chat.send_resume o1) q) = Chat.chatbox q ++ [a1]) /\
    (forall q, Chat.chatbox (exec (Chat.send_resume o2) q) = Chat.chatbox q ++ [a2]) /\
    Chat.chatbox (exec (Chat.send_resume o1) (exec (Chat.send_resume o2) p2))
      = Chat.chatbox p ++
        [Chat.message_div "user" (JS.Str (Chat.trim first));
         Chat.message_div "user" (JS.Str (Chat.trim second)); a2; a1].
Proof.
  intros H1 H2 typed p2.
  assert (forall o, exists a, forall q,
            Chat.chatbox (exec (Chat.send_resume o) q) = Chat.chatbox q ++ [a]) as Hans.
  { intros o.
    destruct (Chat.failed o) eqn:Hf; [|destruct (Chat.unprintable_reply o) eqn:Hu].
    - exists (Chat.message_div "flossy" (JS.Str Chat.error_text)). intros q.
      by destruct (ChatFacts.send_resume_failed o q Hf) as [err ->].
    - exists (Chat.message_div "flossy" (JS.Str Chat.error_text)). intros q.
      by rewrite (ChatFacts.send_resume_unprintable o q Hu).
    - destruct (ChatFacts.send_resume_decoded o p Hf Hu)
        as (status & data & reply & -> & Hget & _).
      exists (Chat.message_div "flossy" (reply || JS.Str Chat.placeholder)%js).
      intros q. destruct (ChatFacts.send_resume_decoded _ q Hf Hu)
        as (status' & data' & reply' & [= <- <-] & Hget' & _ & ->).
      simpl. congruence. }
  destruct (Hans o1) as [a1 Ha1]. destruct (Hans o2) as [a2 Ha2].
  exists a1, a2. split; [exact Ha1|]. split; [exact Ha2|].
  rewrite Ha1, Ha2. subst p2 typed. unfold exec.
  rewrite (ChatFacts.send_click_text (Chat.set_userInput_value first p).1) by done.
  simpl. rewrite ChatFacts.send_click_text by done. simpl.
  by rewrite <- !app_assoc.
Qed.

Lemma answers_follow_arrival_order_witness :
  let slow := Chat.Response 200 (JS.Normal (JS.Obj [("reply", JS.Str "one")])) in
  let fast := Chat.Response 200 (JS.Normal (JS.Obj [("reply", JS.Str "two")])) in
  Chat.trim "first?" <> "" /\ Chat.trim "second?" <> "" /\
  exists a1 a2 : Chat.div,
    Chat.chatbox (exec (Chat.send_resume slow) (Chat.init "")) = [a1] /\
    Chat.chatbox (exec (Chat.send_resume fast) (Chat.init "")) = [a2] /\
    a1 <> a2.
Proof.
  intros slow fast.
  assert (Chat.trim "first?" <> "") as H1 by (vm_compute; discriminate).
  assert (Chat.trim "second?" <> "") as H2 by (vm_compute; discriminate).
  split; [exact H1|]. split; [exact H2|].
  destruct (answers_follow_arrival_order (Chat.init "") "first?" "second?" slow fast H1 H2)
    as (a1 & a2 & Ha1 & Ha2 & _).
  exists a1, a2.
  pose proof (Ha1 (Chat.init "")) as E1. pose proof (Ha2 (Chat.init "")) as E2.
  split; [exact E1|]. split; [exact E2|].
  intros Heq. rewrite Heq, <- E2 in E1. vm_compute in E1. discriminate E1.
Defined.

(** X15.  The resumed listener writes to the error console exactly when
    its [try] block throws: the request is rejected, the body does not
    decode or is [null], or what would be shown for the reply cannot be
    converted to a string; it then writes one entry.  Otherwise it leaves
    the console as it was. *)
Theorem chat_error_logged_iff_try_throws (o : Chat.fetch_result) (q : Chat.page) :
  (Chat.failed o = true \/ Chat.unprintable_reply o = true <->
   exists err, Chat.console (exec (Chat.send_resume o) q)
               = Chat.console q ++ [Chat.ConsoleError "Chat error:" err]) /\
  (Chat.failed o = false /\ Chat.unprintable_reply o = false <->
   Chat.console (exec (Chat.send_resume o) q) = Chat.console q).
Proof.
  destruct (ChatMore.send_resume_effect o q) as (v & log & Hres & Hfail & Hok).
  unfold exec. rewrite Hres. simpl.
  destruct (Chat.failed o); [|destruct (Chat.unprintable_reply o)]; simpl in *.
  - destruct (Hfail eq_refl) as [err ->]. split; split; eauto.
    + by intros [[=] _].
    + intros H. symmetry in H. by apply list_grows in H.
  - destruct (Hfail eq_refl) as [err ->]. split; split; eauto.
    + by intros [_ [=]].
    + intros H. symmetry in H. by apply list_grows in H.
  - rewrite (Hok eq_refl), app_nil_r. split; split; try done.
    + by intros [[=]|[=]].
    + intros [err H]. by apply list_grows in H.
Qed.

(** X16.  An input made of spaces only, however many, is blank: the send
    leaves the page as it is. *)
Theorem spaces_only_input_sends_nothing (n : nat) (o : Chat.fetch_result) (p : Chat.page) :
  Chat.userInput_value p = Chat.spaces n ->
  exec (Chat.send o) p = p.
Proof.
  intros Hin. destruct (ChatMore.send_effect o p) as [_ H].
  by rewrite Hin, ChatMore.trim_spaces in H.
Qed.

Lemma spaces_only_input_sends_nothing_witness :
  let p := Chat.Page [] "   " [] [] in
  Chat.userInput_value p = Chat.spaces 3 /\
  exec (Chat.send (Chat.Rejected "offline")) p = p.
Proof.
  intros p. split; [reflexivity|].
  exact (spaces_only_input_sends_nothing 3 (Chat.Rejected "offline") p eq_refl).
Defined.

(** ** Further properties of the service worker *)

Module WorkerMore.
Import Worker.

(** Reading a member of a section that defaulted to [{}] never throws. *)
Lemma get_member (fields : list (string * JS.value)) (section key : string) :
  JS.get (JS.assoc section fields || JS.Obj [])%js key
    = JS.Normal (member fields section key).
Proof.
  unfold member, JS.or_else.
  destruct (JS.assoc section fields) as [| |[]|[]?|str| |]; simpl; try done.
  by destruct (String.eqb str "").
Qed.

Lemma or_else_truthy (a b : JS.value) :
  JS.truthy b = true -> JS.truthy (a || b)%js = true.
Proof. intros Hb. unfold JS.or_else. by destruct (JS.truthy a) eqn:Ha. Qed.

(** A payload that is not an object is handled like the empty object. *)
Lemma handled_like_own (payload : JS.value) (s : state) :
  payload <> JS.Null -> payload <> JS.Undefined ->
  onBackgroundMessage payload s = onBackgroundMessage (JS.Obj (own payload)) s.
Proof. intros Hnull Hundef. by destruct payload. Qed.

(** The handler on an object, in one equation. *)
Lemma handled (fields : list (string * JS.value)) (s : state) :
  exists n u,
    data n = JS.Obj [("url", u)] /\ JS.truthy u = true /\
    onBackgroundMessage (JS.Obj fields) s =
      (State (console s ++ ["📨 Received background message:"])
             (if displayable (JS.Obj fields) then shown s ++ [n] else shown s),
       JS.Normal tt).
Proof.
  set (u := (member fields "data" "url" || JS.Str site_root)%js).
  eexists (Notification _ _ _ _ (JS.Obj [("url", u)])), u. split; [reflexivity|].
  split; [by apply or_else_truthy|]. subst u.
  unfold onBackgroundMessage, mbind, prog_bind, lift, console_log,
    showNotification, modify. cbv beta iota. simpl JS.get at 1 2.
  cbv beta iota. rewrite !get_member. cbv beta iota zeta.
  unfold displayable, texts, own. cbn [forallb].
  repeat match goal with
  | |- context [JS.to_string_throws ?v] =>
      destruct (JS.to_string_throws v); cbn [negb andb orb]
  end; reflexivity.
Qed.

Lemma data_url_total (n : notification) : exists u, data_url n = JS.Normal u.
Proof.
  unfold data_url. destruct (JS.truthy (data n)) eqn:Ht; [|eauto].
  destruct (data n); simpl; eauto; discriminate.
Qed.

End WorkerMore.

(** X17.  On every payload other than [null] and [undefined] the
    background handler completes without throwing; it displays exactly
    one notification, with a URL that is never empty, when the title,
    body, icon and badge it chose convert to strings, and none when one
    of them does not.  On [null] or [undefined] it throws after logging
    and displays nothing. *)
Theorem background_message_shows_one_if_displayable (payload : JS.value)
    (s : Worker.state) :
  (payload <> JS.Null -> payload <> JS.Undefined ->
   let r := Worker.onBackgroundMessage payload s in
   r.2 = JS.Normal tt /\
   (Worker.displayable payload = true ->
    exists n u, Worker.shown r.1 = Worker.shown s ++ [n]
                /\ Worker.data n = JS.Obj [("url", u)] /\ JS.truthy u = true) /\
   (Worker.displayable payload = false -> Worker.shown r.1 = Worker.shown s)) /\
  (payload = JS.Null \/ payload = JS.Undefined ->
   Worker.onBackgroundMessage payload s =
     (Worker.State (Worker.console s ++ ["📨 Received background message:"])
                   (Worker.shown s),
      JS.Throw "TypeError")).
Proof.
  split.
  - intros Hnull Hundef r. subst r.
    rewrite (WorkerMore.handled_like_own payload s Hnull Hundef).
    destruct (WorkerMore.handled (Worker.own payload) s) as (n & u & Hdata & Hu & ->).
    assert (Worker.displayable (JS.Obj (Worker.own payload))
            = Worker.displayable payload) as -> by reflexivity.
    simpl. split; [done|]. split.
    + intros ->. by exists n, u.
    + by intros ->.
  - by intros [-> | ->].
Qed.

Lemma background_message_shows_one_if_displayable_witness :
  let plain := JS.Obj [("notification", JS.Num false "7"); ("data", JS.Str "x")] in
  let odd := JS.Obj [("data", JS.Obj [("title", JS.Obj [("toString", JS.Num false "1")])])] in
  (exists n, Worker.shown (exec (Worker.onBackgroundMessage plain) Worker.init) = [n]
             /\ Worker.title n = Worker.default_title) /\
  Worker.shown (exec (Worker.onBackgroundMessage odd) Worker.init) = [].
Proof.
  intros plain odd. split.
  - destruct (proj1 (background_message_shows_one_if_displayable plain Worker.init))
      as (_ & Hshow & _); [discriminate | discriminate |].
    destruct (Hshow eq_refl) as (n & u & Hn & _).
    exists n. split; [exact Hn|].
    unfold exec in Hn. vm_compute in Hn. by injection Hn as <-.
  - destruct (proj1 (background_message_shows_one_if_displayable odd Worker.init))
      as (_ & _ & Hnone); [discriminate | discriminate |].
    exact (Hnone eq_refl).
Defined.

(** X18.  For a payload of the interface's shape the icon of the
    displayed notification is the notification section's icon when
    supplied, else the data section's, else the default icon; the badge
    is the data section's badge, else the default badge, and a badge in
    the notification section is not looked at. *)
Theorem background_message_icon_and_badge (payload : JS.value) (s : Worker.state) :
  Worker.shaped payload = true ->
  exists n : Worker.notification,
    Worker.shown (exec (Worker.onBackgroundMessage payload) s) = Worker.shown s ++ [n] /\
    Worker.icon n = Worker.preferred payload "icon" Worker.default_icon /\
    Worker.badge n
      = default Worker.default_badge (Worker.supplied payload "data" "badge").
Proof.
  intros Hshape. destruct payload as [| | | | | |fields]; try discriminate.
  rewrite (WorkerFacts.shown_for fields s Hshape). eexists. split; [reflexivity|].
  pose proof Hshape as Hs. unfold Worker.shaped in Hs.
  apply andb_prop in Hs as [Hn Hd].
  cbn [Worker.icon Worker.badge].
  rewrite (WorkerFacts.choice_preferred fields _ _ _ _ Hn Hd) by repeat constructor.
  split; [reflexivity|].
  assert ("badge" ∈ Worker.data_keys) as Hk by (repeat constructor).
  destruct (WorkerFacts.member_supplied fields Worker.data_keys "data" "badge" Hd Hk)
    as (_ & _ & ->).
  unfold JS.or_else.
  by destruct (JS.truthy (Worker.member fields "data" "badge")) eqn:Ht.
Qed.

Lemma background_message_icon_and_badge_witness :
  let payload :=
    JS.Obj [("notification", JS.Obj [("badge", JS.Str "/n.png")]);
            ("data", JS.Obj [("icon", JS.Str "/tooth.png")])] in
  Worker.shaped payload = true /\
  exists n : Worker.notification,
    Worker.shown (exec (Worker.onBackgroundMessage payload) Worker.init) = [n] /\
    Worker.icon n = "/tooth.png" /\ Worker.badge n = Worker.default_badge.
Proof.
  intros payload. split; [reflexivity|].
  destruct (background_message_icon_and_badge payload Worker.init eq_refl)
    as (n & Hshown & Hicon & Hbadge).
  exists n. split; [exact Hshown|]. split; [exact Hicon | exact Hbadge].
Defined.

(** X19.  The click listener never throws, whatever notification and
    clients it meets; after logging and closing the notification it
    navigates and focuses no client but the first that can be focused, and
    opens a window only when no client can be focused and [openWindow]
    exists. *)
Theorem notification_click_never_throws (n : Worker.notification)
    (clientList : list Worker.client) (openWindow : bool) :
  exists effects,
    Worker.notificationclick n clientList openWindow
      = JS.Normal (Worker.clicked ++ effects) /\
    forall e, e ∈ effects ->
      match e with
      | Worker.Navigate c _ | Worker.Focus c =>
          exists first, List.find Worker.has_focus clientList = Some first
                        /\ c = Worker.client_id first
      | Worker.OpenWindow _ =>
          List.find Worker.has_focus clientList = None /\ openWindow = true
      | _ => False
      end.
Proof.
  destruct (WorkerMore.data_url_total n) as [u Hu].
  unfold Worker.notificationclick.
  rewrite (WorkerFacts.visit_find n u clientList Hu).
  destruct (List.find Worker.has_focus clientList) as [c|]; simpl.
  - eexists. split; [reflexivity|]. intros e He.
    unfold Worker.with_url in He.
    destruct (JS.truthy u); [destruct (JS.ToString u)|]; simpl in He;
      repeat (apply elem_of_cons in He as [->|He]; [by eauto|]);
      by apply elem_of_nil in He.
  - destruct openWindow; simpl.
    + rewrite Hu. simpl. eexists. split; [reflexivity|]. intros e He.
      unfold Worker.with_url in He.
      destruct (JS.truthy u); [destruct (JS.ToString u)|]; simpl in He;
        repeat (apply elem_of_cons in He as [->|He]; [by eauto|]);
        by apply elem_of_nil in He.
    + exists []. split; [reflexivity|]. intros e He. by apply elem_of_nil in He.
Qed.

(** X20.  On a notification that carries no URL (its [data] is missing
    or has no [url]), the click only closes the notification and focuses
    the first client that can be focused: it navigates nowhere and opens
    no window. *)
Theorem click_without_url_only_focuses (n : Worker.notification) (u : JS.value)
    (clientList : list Worker.client) (openWindow : bool) :
  Worker.data_url n = JS.Normal u -> JS.truthy u = false ->
  Worker.notificationclick n clientList openWindow =
    JS.Normal (Worker.clicked ++
               match List.find Worker.has_focus clientList with
               | Some c => [Worker.Focus (Worker.client_id c)]
               | None => []
               end).
Proof.
  intros Hu Hfalsy. unfold Worker.notificationclick.
  rewrite (WorkerFacts.visit_find n u clientList Hu).
  assert (forall request, Worker.with_url request u = []) as Hnone
    by (intros request; unfold Worker.with_url; by rewrite Hfalsy).
  destruct (List.find Worker.has_focus clientList) as [c|]; simpl.
  - by rewrite Hnone.
  - destruct openWindow; simpl; [|done]. rewrite Hu. simpl. by rewrite Hnone.
Qed.

Lemma click_without_url_only_focuses_witness :
  let n := Worker.Notification "Reminder" "Brush" "" "" JS.Null in
  Worker.data_url n = JS.Normal JS.Null /\ JS.truthy JS.Null = false /\
  Worker.notificationclick n [Worker.Client 1 false; Worker.Client 2 true] true
    = JS.Normal (Worker.clicked ++ [Worker.Focus 2]).
Proof.
  intros n. split; [reflexivity|]. split; [reflexivity|].
  exact (click_without_url_only_focuses n JS.Null
           [Worker.Client 1 false; Worker.Client 2 true] true eq_refl eq_refl).
Defined.
